(** * Trending-Video-Front-End: the headline fetcher of [src/index.tsx]

    A shallow embedding of [escapeHtml] and [fetchAndDisplayNews].

    Strings are [String.string]; a character of the model stands for one
    code unit of the JavaScript string.  The code only ever inspects ASCII
    code units (the five escaped characters, the two brackets, the line
    feed and the prefix [www.]).

    The DOM is explicit state: the [hidden] class of the loader, the
    children of the results container and the console.  Exceptions and the
    early [return] are completion records threaded through [try], [catch]
    and [finally] combinators.

    [JSON.parse], [new URL(..).hostname], the conversion of numbers and
    the remote call are not code of the page: they are the fields of a
    [Platform] and of the client, over which every general theorem is
    universally quantified.  [Model] is an executable platform on which
    the examples are run. *)

From Stdlib Require Import String Ascii List Bool ZArith Lia.
Import ListNotations.
Open Scope string_scope.
Open Scope Z_scope.

(** ** Characters and string primitives *)

Module Chars.

Definition amp : ascii := "&"%char.
Definition lt : ascii := "<"%char.
Definition gt : ascii := ">"%char.
Definition dquote : ascii := "034"%char.
Definition squote : ascii := "'"%char.
Definition lf : ascii := "010"%char.

End Chars.

(** The string made of one double quote, and of one line feed. *)
Definition dq : string := String Chars.dquote "".
Definition nl : string := String Chars.lf "".

(** [s.replace(/c/g, r)] for a pattern that is the single character [c]
    and a replacement [r] without [$]. *)
Fixpoint replaceAll (c : ascii) (r : string) (s : string) : string :=
  match s with
  | EmptyString => EmptyString
  | String a s' =>
      if Ascii.eqb a c then r ++ replaceAll c r s'
      else String a (replaceAll c r s')
  end.

(** [escapeHtml], lines 144-151: five global replacements, [&] first. *)
Definition escapeHtml (unsafe : string) : string :=
  replaceAll Chars.squote "&#039;"
    (replaceAll Chars.dquote "&quot;"
      (replaceAll Chars.gt "&gt;"
        (replaceAll Chars.lt "&lt;"
          (replaceAll Chars.amp "&amp;" unsafe)))).

(** The five characters [escapeHtml] replaces. *)
Definition special (a : ascii) : bool :=
  Ascii.eqb a Chars.amp || Ascii.eqb a Chars.lt || Ascii.eqb a Chars.gt
  || Ascii.eqb a Chars.dquote || Ascii.eqb a Chars.squote.

(** What the five passes of the code make of one character: the
    replacement strings of lines 146-150; other characters stand for
    themselves.  For the apostrophe the code writes the numeric reference
    [&#039;]. *)
Definition entity (a : ascii) : string :=
  if Ascii.eqb a Chars.amp then "&amp;"
  else if Ascii.eqb a Chars.lt then "&lt;"
  else if Ascii.eqb a Chars.gt then "&gt;"
  else if Ascii.eqb a Chars.dquote then "&quot;"
  else if Ascii.eqb a Chars.squote then "&#039;"
  else String a "".

(** One pass, left to right, each character replaced as [entity] says: a
    description of what the code does, to compare the five passes with. *)
Fixpoint escape_spec (s : string) : string :=
  match s with
  | EmptyString => EmptyString
  | String a s' => entity a ++ escape_spec s'
  end.

(** [c] occurs in [s]. *)
Fixpoint occurs (c : ascii) (s : string) : bool :=
  match s with
  | EmptyString => false
  | String a s' => Ascii.eqb a c || occurs c s'
  end.

(** Some character of [s] is one of the five. *)
Fixpoint has_special (s : string) : bool :=
  match s with
  | EmptyString => false
  | String a s' => special a || has_special s'
  end.

(** [p] is a prefix of [s] ([String.prefix] with the arguments named). *)
Definition starts_with (p s : string) : bool := String.prefix p s.

(** Every [&] of [s] starts one of the five entities. *)
Fixpoint amp_only_in_entities (s : string) : bool :=
  match s with
  | EmptyString => true
  | String a s' =>
      (if Ascii.eqb a Chars.amp then
         starts_with "amp;" s' || starts_with "lt;" s' || starts_with "gt;" s'
         || starts_with "quot;" s' || starts_with "#039;" s'
       else true)
      && amp_only_in_entities s'
  end.

(** [s] has no raw occurrence of the five characters: no [<], no [>],
    neither quote, and no [&] other than the one that starts an entity. *)
Definition no_raw_special (s : string) : bool :=
  negb (occurs Chars.lt s) && negb (occurs Chars.gt s)
  && negb (occurs Chars.dquote s) && negb (occurs Chars.squote s)
  && amp_only_in_entities s.

(** [s.indexOf(c)] and [s.lastIndexOf(c)] for a one-character [c]:
    the position of the first and of the last occurrence, [-1] if none. *)
Fixpoint indexOf_from (c : ascii) (s : string) (i : Z) : Z :=
  match s with
  | EmptyString => -1
  | String a s' => if Ascii.eqb a c then i else indexOf_from c s' (i + 1)
  end.

Definition indexOf (s : string) (c : ascii) : Z := indexOf_from c s 0.

Fixpoint lastIndexOf_from (c : ascii) (s : string) (i last : Z) : Z :=
  match s with
  | EmptyString => last
  | String a s' =>
      lastIndexOf_from c s' (i + 1) (if Ascii.eqb a c then i else last)
  end.

Definition lastIndexOf (s : string) (c : ascii) : Z :=
  lastIndexOf_from c s 0 (-1).

(** [s.substring(start, end)]: both indices are clamped to the string and
    swapped when [start] is the larger. *)
Definition substring (s : string) (start end_ : Z) : string :=
  let len := Z.of_nat (String.length s) in
  let fs := Z.min (Z.max start 0) len in
  let fe := Z.min (Z.max end_ 0) len in
  let from := Z.min fs fe in
  let to := Z.max fs fe in
  String.substring (Z.to_nat from) (Z.to_nat (to - from)) s.

(** [s.replace(/^www\./, '')]. *)
Definition strip_www (s : string) : string :=
  if starts_with "www." s then String.substring 4 (String.length s - 4) s
  else s.

(** ** JavaScript values, errors and completions *)

(** The values [JSON.parse] can return, and [undefined] for a property
    that is absent.  A number keeps its numeral: what the numeral denotes
    as a double is the platform's business.  An object is the list of its
    own properties. *)
#[warnings="-register-all"]
Inductive JSValue : Type :=
| JUndefined
| JNull
| JBool (b : bool)
| JNumber (numeral : string)
| JString (s : string)
| JArray (items : list JSValue)
| JObject (props : list (string * JSValue)).

Inductive JSError : Type :=
| TypeError
| SyntaxError
| Error (message : string).

(** The result of evaluating an expression. *)
Inductive Result (A : Type) : Type :=
| Ok (a : A)
| Raise (e : JSError).
Arguments Ok {A} a.
Arguments Raise {A} e.

Definition rbind {A B : Type} (r : Result A) (k : A -> Result B) : Result B :=
  match r with
  | Ok a => k a
  | Raise e => Raise e
  end.

Notation "x <- r ;; k" := (rbind r (fun x => k))
  (at level 61, r at next level, right associativity).

(** What the page depends on and this file does not define. *)
Class Platform : Type := {
  (** [JSON.parse(s)]; [None] when it throws its [SyntaxError]. *)
  JSON_parse : string -> option JSValue;
  (** [new URL(s).hostname]; [None] when the constructor throws its
      [TypeError]. *)
  URL_hostname : string -> option string;
  (** [Boolean(x)] and [String(x)] for the number a numeral denotes. *)
  Number_truthy : string -> bool;
  Number_toString : string -> string
}.

(** The own property [k] of an object. *)
Fixpoint lookup (k : string) (props : list (string * JSValue)) : JSValue :=
  match props with
  | [] => JUndefined
  | (k', v) :: rest => if String.eqb k' k then v else lookup k rest
  end.

Definition has_own (k : string) (props : list (string * JSValue)) : bool :=
  existsb (fun kv => String.eqb (fst kv) k) props.

(** [v.k] for the two keys the code reads, [title] and [url], which no
    prototype defines: only an object can have them, and reading a
    property of [null] or [undefined] throws. *)
Definition Get (v : JSValue) (k : string) : Result JSValue :=
  match v with
  | JUndefined | JNull => Raise TypeError
  | JObject props => Ok (lookup k props)
  | _ => Ok JUndefined
  end.

(** [Array.prototype.join] with the comma: the elements converted by
    [element], in order. *)
Definition join_with (element : JSValue -> Result string)
  : list JSValue -> Result string :=
  fix join (l : list JSValue) : Result string :=
    match l with
    | [] => Ok ""
    | [x] => element x
    | x :: rest =>
        sx <- element x ;; srest <- join rest ;; Ok (sx ++ "," ++ srest)
    end.

Section WithPlatform.

Context {P : Platform}.

(** The truthiness tested by [&&] and [if]. *)
Definition ToBoolean (v : JSValue) : bool :=
  match v with
  | JUndefined | JNull => false
  | JBool b => b
  | JNumber n => Number_truthy n
  | JString s => negb (String.eqb s "")
  | JArray _ | JObject _ => true
  end.

(** The string conversion applied by a template literal and by the
    [URL] constructor.  An array joins its elements with commas, [null]
    and [undefined] elements giving the empty string; an object gives
    [[object Object]] unless an own [toString] property, which after
    [JSON.parse] is never a function, hides the inherited one. *)
Fixpoint ToString (v : JSValue) : Result string :=
  match v with
  | JUndefined => Ok "undefined"
  | JNull => Ok "null"
  | JBool true => Ok "true"
  | JBool false => Ok "false"
  | JNumber n => Ok (Number_toString n)
  | JString s => Ok s
  | JArray items =>
      join_with
        (fun x =>
           match x with
           | JUndefined | JNull => Ok ""
           | _ => ToString x
           end)
        items
  | JObject props =>
      if has_own "toString" props then Raise TypeError
      else Ok "[object Object]"
  end.

(** [escapeHtml(v)] as a call on an arbitrary value: [v.replace] is a
    function only on a string. *)
Definition call_escapeHtml (v : JSValue) : Result string :=
  match v with
  | JString s => Ok (escapeHtml s)
  | _ => Raise TypeError
  end.

(** [new URL(v).hostname]. *)
Definition hostname_of (v : JSValue) : Result string :=
  s <- ToString v ;;
  match URL_hostname s with
  | Some h => Ok h
  | None => Raise TypeError
  end.

End WithPlatform.

(** ** The page: DOM state and statements *)

(** A child of the results container: what assigning markup to the
    container's [innerHTML] leaves there, or a [div] built by
    [createElement], with its class and its own [innerHTML]. *)
Inductive Node : Type :=
| Html (markup : string)
| Div (className : string) (innerHTML : string).

Record State : Type := mkState {
  (** the loader carries the class [hidden] *)
  loader_hidden : bool;
  (** the children of [#news-results], first to last *)
  newsResults : list Node;
  (** the calls of [console.error], oldest first *)
  console : list (string * JSError)
}.

(** The loading flag of the specification: the loader is shown. *)
Definition loading (st : State) : bool := negb (loader_hidden st).

(** How a statement completes. *)
Inductive Completion : Type :=
| Normal
| Return
| Throw (e : JSError).

Definition Stmt : Type := State -> Completion * State.

Definition skip : Stmt := fun st => (Normal, st).
Definition return_ : Stmt := fun st => (Return, st).
Definition throw (e : JSError) : Stmt := fun st => (Throw e, st).

Definition seq (s1 s2 : Stmt) : Stmt :=
  fun st =>
    match s1 st with
    | (Normal, st') => s2 st'
    | abrupt => abrupt
    end.

Notation "s1 ;;; s2" := (seq s1 s2) (at level 62, right associativity).

(** [try { body } catch (e) { handler e }]. *)
Definition try_catch (body : Stmt) (handler : JSError -> Stmt) : Stmt :=
  fun st =>
    match body st with
    | (Throw e, st') => handler e st'
    | other => other
    end.

(** [try { body } finally { final }]: [final] runs however [body]
    completes, and the completion of [body] stands unless [final] is
    itself abrupt. *)
Definition try_finally (body final : Stmt) : Stmt :=
  fun st =>
    let (c, st') := body st in
    match final st' with
    | (Normal, st'') => (c, st'')
    | abrupt => abrupt
    end.

(** [showLoading], lines 114-120. *)
Definition showLoading (isLoading : bool) : Stmt :=
  fun st =>
    if isLoading
    then (Normal, mkState false (newsResults st) (console st))
    else (Normal, mkState true (newsResults st) (console st)).

(** [newsResults.innerHTML = markup]: the children are replaced by what
    the markup parses to, nothing for the empty string. *)
Definition set_innerHTML (markup : string) : Stmt :=
  fun st =>
    (Normal,
     mkState (loader_hidden st)
       (if String.eqb markup "" then [] else [Html markup])
       (console st)).

(** [newsResults.appendChild(node)]. *)
Definition appendChild (node : Node) : Stmt :=
  fun st =>
    (Normal,
     mkState (loader_hidden st) (newsResults st ++ [node]) (console st)).

(** The state after appending [items], one after the other. *)
Definition appended (items : list Node) (st : State) : State :=
  mkState (loader_hidden st) (newsResults st ++ items) (console st).

(** [console.error(label, e)]. *)
Definition console_error (label : string) (e : JSError) : Stmt :=
  fun st =>
    (Normal,
     mkState (loader_hidden st) (newsResults st) (console st ++ [(label, e)])).

(** The remote call. *)
Record Request : Type := mkRequest {
  model : string;
  contents : string;
  googleSearch : bool
}.

(** What awaiting the call gives: a rejection, or a response with its
    [text], which may be [undefined]. *)
Inductive CallOutcome : Type :=
| Rejects (reason : JSError)
| Resolves (text : option string).

Record GoogleGenAI : Type := mkClient {
  generateContent : Request -> CallOutcome
}.

Definition the_request : Request :=
  mkRequest "gemini-2.5-flash"
    "List the top 5 trending news headlines worldwide. Your response must be only a valid JSON array. Each object in the array must contain two keys: 'title' for the headline, and 'url' for the direct link to the article."
    true.

Definition msg_not_initialized : string :=
  "<p>The AI client is not initialized. Please ensure your API key is configured correctly.</p>".
Definition msg_no_news : string :=
  "<p>No trending news could be retrieved at this time.</p>".
Definition msg_error : string :=
  "<p>An error occurred while fetching news. Please check the console for details.</p>".

(** The template literal of lines 85-90 with its three holes filled. *)
Definition item_markup (href heading label : string) : string :=
  nl ++ "                  <a href=" ++ dq ++ href ++ dq
     ++ " target=" ++ dq ++ "_blank" ++ dq
     ++ " rel=" ++ dq ++ "noopener noreferrer" ++ dq ++ ">"
  ++ nl ++ "                    <h3>" ++ heading ++ "</h3>"
  ++ nl ++ "                    <p>" ++ label ++ "</p>"
  ++ nl ++ "                  </a>"
  ++ nl ++ "                ".

(** The markup of the fallback, line 98. *)
Definition fallback_markup (textResponse : string) : string :=
  "<p>" ++ replaceAll Chars.lf "<br>" (escapeHtml textResponse) ++ "</p>".

Section Fetcher.

Context {P : Platform}.

(** The body of the loop, lines 76-92, up to the [appendChild]: the
    element to append, if the record passes the test of line 76. *)
Definition renderArticle (article : JSValue) : Result (option Node) :=
  t <- Get article "title" ;;
  if negb (ToBoolean t) then Ok None else
  u <- Get article "url" ;;
  if negb (ToBoolean u) then Ok None else
  title <- Get article "title" ;;
  uri <- Get article "url" ;;
  host <- hostname_of uri ;;
  let sourceName := strip_www host in
  href <- ToString uri ;;
  heading <- call_escapeHtml title ;;
  label <- call_escapeHtml (JString sourceName) ;;
  Ok (Some (Div "news-item" (item_markup href heading label))).

(** [for (const article of articles) { ... }], lines 75-93. *)
Fixpoint forOf (articles : list JSValue) : Stmt :=
  match articles with
  | [] => skip
  | article :: rest =>
      match renderArticle article with
      | Raise e => throw e
      | Ok None => forOf rest
      | Ok (Some newsItem) => appendChild newsItem ;;; forOf rest
      end
  end.

(** Lines 60-67: the text between the first [[] and the last []]. *)
Definition extractJson (textResponse : string) : Result string :=
  let jsonStart := indexOf textResponse "["%char in
  let jsonEnd := lastIndexOf textResponse "]"%char in
  if (jsonStart =? -1) || (jsonEnd =? -1)
  then Raise (Error "Could not find a valid JSON array in the response.")
  else Ok (substring textResponse jsonStart (jsonEnd + 1)).

(** The body of the inner [try], lines 58-93. *)
Definition parseAndRender (textResponse : string) : Stmt :=
  match extractJson textResponse with
  | Raise e => throw e
  | Ok jsonString =>
      match JSON_parse jsonString with
      | None => throw SyntaxError
      | Some articles =>
          match articles with
          | JArray ((_ :: _) as items) => forOf items
          | _ => set_innerHTML msg_no_news ;;; return_
          end
      end
  end.

(** The body of the outer [try] once the call has settled, lines 51-99. *)
Definition handleOutcome (outcome : CallOutcome) : Stmt :=
  match outcome with
  | Rejects reason => throw reason
  | Resolves text =>
      match text with
      | None | Some EmptyString =>
          throw (Error "Received an empty response from the API.")
      | Some textResponse =>
          try_catch (parseAndRender textResponse)
            (fun parseError =>
               console_error "Failed to parse JSON response:" parseError ;;;
               set_innerHTML (fallback_markup textResponse))
      end
  end.

(** Lines 33-34: what has run when the call is issued. *)
Definition prologue : Stmt :=
  showLoading true ;;; set_innerHTML "".

(** The page while the call is in flight: loader shown, results
    cleared. *)
Definition in_flight (st : State) : State := mkState false [] (console st).

(** [fetchAndDisplayNews], lines 32-108, as one step: [ai] is the module's
    client, absent when its construction threw at start-up. *)
Definition fetchAndDisplayNews (ai : option GoogleGenAI) : Stmt :=
  prologue ;;;
  match ai with
  | None =>
      set_innerHTML msg_not_initialized ;;; showLoading false ;;; return_
  | Some client =>
      try_finally
        (try_catch
           (handleOutcome (generateContent client the_request))
           (fun error =>
              console_error "Error fetching news:" error ;;;
              set_innerHTML msg_error))
        (showLoading false)
  end.

(** The page after a call of [fetchAndDisplayNews]. *)
Definition after_fetch (ai : option GoogleGenAI) (st : State) : State :=
  snd (fetchAndDisplayNews ai st).

End Fetcher.

(** ** An executable platform

    A model of the two library functions on the inputs the examples need:
    [JSON.parse] following the JSON grammar, and the host name of an
    absolute URL.  No general theorem depends on it. *)

Module Model.

Definition code (a : ascii) : N := N_of_ascii a.

Definition is_ws (a : ascii) : bool :=
  let n := code a in
  ((n =? 32) || (n =? 9) || (n =? 10) || (n =? 13))%N.

Definition is_digit (a : ascii) : bool :=
  let n := code a in ((48 <=? n) && (n <=? 57))%N.

Definition is_alpha (a : ascii) : bool :=
  let n := code a in
  (((65 <=? n) && (n <=? 90)) || ((97 <=? n) && (n <=? 122)))%N.

Definition lower (a : ascii) : ascii :=
  let n := code a in
  if ((65 <=? n) && (n <=? 90))%N then ascii_of_N (n + 32) else a.

Fixpoint lower_string (s : string) : string :=
  match s with
  | EmptyString => EmptyString
  | String a r => String (lower a) (lower_string r)
  end.

Fixpoint skip_ws (s : string) : string :=
  match s with
  | EmptyString => EmptyString
  | String a r => if is_ws a then skip_ws r else s
  end.

(** The rest of [s] after the prefix [p]. *)
Fixpoint after_prefix (p s : string) : option string :=
  match p, s with
  | EmptyString, _ => Some s
  | String a p', String b s' =>
      if Ascii.eqb a b then after_prefix p' s' else None
  | _, _ => None
  end.

(** The longest prefix of digits, and the rest. *)
Fixpoint span_digits (s : string) : string * string :=
  match s with
  | String a r =>
      if is_digit a then let (d, r') := span_digits r in (String a d, r')
      else (EmptyString, s)
  | EmptyString => (EmptyString, EmptyString)
  end.

(** A JSON number at the head of [s]: its numeral and the rest. *)
Definition lex_number (s : string) : option (string * string) :=
  let (sign, s1) :=
    match s with
    | String "-"%char r => ("-", r)
    | _ => ("", s)
    end in
  let (int, s2) := span_digits s1 in
  match int with
  | EmptyString => None
  | String "0"%char (String _ _) => None
  | _ =>
      let frac :=
        match s2 with
        | String "."%char r =>
            let (d, r') := span_digits r in
            match d with
            | EmptyString => None
            | _ => Some ("." ++ d, r')
            end
        | _ => Some ("", s2)
        end in
      match frac with
      | None => None
      | Some (f, s3) =>
          let exponent :=
            match s3 with
            | String e r =>
                if Ascii.eqb e "e"%char || Ascii.eqb e "E"%char then
                  let (sg, r1) :=
                    match r with
                    | String "+"%char r' => ("+", r')
                    | String "-"%char r' => ("-", r')
                    | _ => ("", r)
                    end in
                  let (d, r2) := span_digits r1 in
                  match d with
                  | EmptyString => None
                  | _ => Some (String e (sg ++ d), r2)
                  end
                else Some ("", s3)
            | EmptyString => Some ("", s3)
            end in
          match exponent with
          | None => None
          | Some (x, s4) => Some (sign ++ int ++ f ++ x, s4)
          end
      end
  end.

Definition hex_value (a : ascii) : option N :=
  let n := code a in
  if is_digit a then Some (n - 48)%N
  else if ((97 <=? n) && (n <=? 102))%N then Some (n - 87)%N
  else if ((65 <=? n) && (n <=? 70))%N then Some (n - 55)%N
  else None.

(** The code unit of [\uXXXX]; only those of one byte are characters of
    this model. *)
Definition unicode_escape (a b c d : ascii) : option ascii :=
  match hex_value a, hex_value b, hex_value c, hex_value d with
  | Some x, Some y, Some z, Some w =>
      let n := (((x * 16 + y) * 16 + z) * 16 + w)%N in
      if (n <? 256)%N then Some (ascii_of_N n) else None
  | _, _, _, _ => None
  end.

Definition simple_escape (a : ascii) : option ascii :=
  let n := code a in
  if (n =? 34)%N then Some a
  else if Ascii.eqb a "\"%char then Some a
  else if Ascii.eqb a "/"%char then Some a
  else if Ascii.eqb a "b"%char then Some "008"%char
  else if Ascii.eqb a "f"%char then Some "012"%char
  else if Ascii.eqb a "n"%char then Some "010"%char
  else if Ascii.eqb a "r"%char then Some "013"%char
  else if Ascii.eqb a "t"%char then Some "009"%char
  else None.

(** The characters of a JSON string after its opening quote, up to the
    closing one: the string denoted and the rest. *)
Fixpoint lex_string (s : string) : option (string * string) :=
  match s with
  | EmptyString => None
  | String a r =>
      if Ascii.eqb a Chars.dquote then Some (EmptyString, r)
      else if Ascii.eqb a "\"%char then
        match r with
        | String "u"%char (String h1 (String h2 (String h3 (String h4 r')))) =>
            match unicode_escape h1 h2 h3 h4, lex_string r' with
            | Some c, Some (t, rest) => Some (String c t, rest)
            | _, _ => None
            end
        | String e r' =>
            match simple_escape e, lex_string r' with
            | Some c, Some (t, rest) => Some (String c t, rest)
            | _, _ => None
            end
        | EmptyString => None
        end
      else if (code a <? 32)%N then None
      else
        match lex_string r with
        | Some (t, rest) => Some (String a t, rest)
        | None => None
        end
  end.

(** Defining a property: a later duplicate of a key overwrites the
    value and keeps the place. *)
Fixpoint define (k : string) (v : JSValue) (props : list (string * JSValue))
  : list (string * JSValue) :=
  match props with
  | [] => [(k, v)]
  | (k', v') :: rest =>
      if String.eqb k' k then (k', v) :: rest
      else (k', v') :: define k v rest
  end.

(** A JSON value at the head of [s], after white space: the value and
    the rest.  [fuel] bounds the nesting of the calls. *)
Fixpoint parse_value (fuel : nat) (s : string) : option (JSValue * string) :=
  match fuel with
  | O => None
  | S fuel' =>
      match skip_ws s with
      | EmptyString => None
      | String a r as s' =>
          if Ascii.eqb a Chars.dquote then
            match lex_string r with
            | Some (t, rest) => Some (JString t, rest)
            | None => None
            end
          else if Ascii.eqb a "["%char then
            match skip_ws r with
            | String "]"%char rest => Some (JArray [], rest)
            | _ => parse_elements fuel' r []
            end
          else if Ascii.eqb a "{"%char then
            match skip_ws r with
            | String "}"%char rest => Some (JObject [], rest)
            | _ => parse_members fuel' r []
            end
          else if Ascii.eqb a "t"%char then
            option_map (fun rest => (JBool true, rest)) (after_prefix "true" s')
          else if Ascii.eqb a "f"%char then
            option_map (fun rest => (JBool false, rest))
                       (after_prefix "false" s')
          else if Ascii.eqb a "n"%char then
            option_map (fun rest => (JNull, rest)) (after_prefix "null" s')
          else
            match lex_number s' with
            | Some (numeral, rest) => Some (JNumber numeral, rest)
            | None => None
            end
      end
  end

with parse_elements (fuel : nat) (s : string) (acc : list JSValue)
  : option (JSValue * string) :=
  match fuel with
  | O => None
  | S fuel' =>
      match parse_value fuel' s with
      | None => None
      | Some (v, r) =>
          match skip_ws r with
          | String ","%char rest => parse_elements fuel' rest (acc ++ [v])
          | String "]"%char rest => Some (JArray (acc ++ [v]), rest)
          | _ => None
          end
      end
  end

with parse_members (fuel : nat) (s : string) (acc : list (string * JSValue))
  : option (JSValue * string) :=
  match fuel with
  | O => None
  | S fuel' =>
      match skip_ws s with
      | String a r =>
          if Ascii.eqb a Chars.dquote then
            match lex_string r with
            | None => None
            | Some (k, r1) =>
                match skip_ws r1 with
                | String ":"%char r2 =>
                    match parse_value fuel' r2 with
                    | None => None
                    | Some (v, r3) =>
                        match skip_ws r3 with
                        | String ","%char rest =>
                            parse_members fuel' rest (define k v acc)
                        | String "}"%char rest =>
                            Some (JObject (define k v acc), rest)
                        | _ => None
                        end
                    end
                | _ => None
                end
            end
          else None
      | EmptyString => None
      end
  end.

(** [JSON.parse]: one value, white space around it, nothing else. *)
Definition parse (s : string) : option JSValue :=
  match parse_value (2 * String.length s + 2) s with
  | Some (v, rest) =>
      match skip_ws rest with
      | EmptyString => Some v
      | _ => None
      end
  | None => None
  end.

(** A number is falsy when it is zero: no digit of its mantissa is other
    than [0].  (Numerals that only round to zero are beyond the model.) *)
Fixpoint mantissa_nonzero (s : string) : bool :=
  match s with
  | EmptyString => false
  | String a r =>
      if Ascii.eqb a "e"%char || Ascii.eqb a "E"%char then false
      else (is_digit a && negb (Ascii.eqb a "0"%char)) || mantissa_nonzero r
  end.

(** The numeral itself: right for the numerals already written the way
    JavaScript prints numbers. *)
Definition numeral_toString (numeral : string) : string := numeral.

(** *** The host name of an absolute URL

    The scheme, then for [http], [https], [ws], [wss] and [ftp] the
    authority after any run of slashes, without credentials and port.
    Host names are plain DNS names; anything else ([None]) is left to the
    real parser. *)

Fixpoint scheme_rest (s : string) : option (string * string) :=
  match s with
  | EmptyString => None
  | String a r =>
      if Ascii.eqb a ":"%char then Some (EmptyString, r)
      else if is_alpha a || is_digit a || Ascii.eqb a "+"%char
              || Ascii.eqb a "-"%char || Ascii.eqb a "."%char then
        match scheme_rest r with
        | Some (sch, rest) => Some (String (lower a) sch, rest)
        | None => None
        end
      else None
  end.

Definition split_scheme (s : string) : option (string * string) :=
  match s with
  | String a _ => if is_alpha a then scheme_rest s else None
  | EmptyString => None
  end.

Definition is_slash (a : ascii) : bool :=
  Ascii.eqb a "/"%char || Ascii.eqb a "\"%char.

Fixpoint skip_slashes (s : string) : string :=
  match s with
  | EmptyString => EmptyString
  | String a r => if is_slash a then skip_slashes r else s
  end.

(** The authority: up to the first slash, [?] or [#]. *)
Fixpoint authority (s : string) : string :=
  match s with
  | EmptyString => EmptyString
  | String a r =>
      if is_slash a || Ascii.eqb a "?"%char || Ascii.eqb a "#"%char
      then EmptyString
      else String a (authority r)
  end.

(** What follows the last [@], the whole if there is none. *)
Fixpoint after_credentials (s : string) : string :=
  match s with
  | EmptyString => EmptyString
  | String a r =>
      if occurs "@"%char s then after_credentials r else s
  end.

(** Host and port, split at the first colon. *)
Fixpoint split_port (s : string) : string * option string :=
  match s with
  | EmptyString => (EmptyString, None)
  | String a r =>
      if Ascii.eqb a ":"%char then (EmptyString, Some r)
      else let (h, p) := split_port r in (String a h, p)
  end.

Fixpoint all_digits (s : string) : bool :=
  match s with
  | EmptyString => true
  | String a r => is_digit a && all_digits r
  end.

Fixpoint decimal (s : string) (acc : N) : N :=
  match s with
  | EmptyString => acc
  | String a r => decimal r (acc * 10 + (code a - 48))%N
  end.

Definition port_ok (p : option string) : bool :=
  match p with
  | None => true
  | Some d => all_digits d && (decimal d 0 <=? 65535)%N
  end.

(** A plain DNS name: letters, digits, hyphens and dots, the last label
    starting with a letter. *)
Fixpoint dns_name (s : string) (label_start last_alpha : bool) : bool :=
  match s with
  | EmptyString => last_alpha
  | String a r =>
      if Ascii.eqb a "."%char then dns_name r true last_alpha
      else if is_alpha a
      then dns_name r false (if label_start then true else last_alpha)
      else if is_digit a || Ascii.eqb a "-"%char
      then dns_name r false (if label_start then false else last_alpha)
      else false
  end.

Definition web_scheme (sch : string) : bool :=
  String.eqb sch "http" || String.eqb sch "https" || String.eqb sch "ws"
  || String.eqb sch "wss" || String.eqb sch "ftp".

Definition hostname (s : string) : option string :=
  match split_scheme s with
  | None => None
  | Some (sch, rest) =>
      if web_scheme sch then
        let (host, port) :=
          split_port (after_credentials (authority (skip_slashes rest))) in
        if dns_name host true false && port_ok port
        then Some (lower_string host)
        else None
      else None
  end.

Definition platform : Platform := {|
  JSON_parse := parse;
  URL_hostname := hostname;
  Number_truthy := mantissa_nonzero;
  Number_toString := numeral_toString
|}.

End Model.

(** ** Records as the specification sees them *)

Section Records.

Context {P : Platform}.

(** A field that is absent or the empty string. *)
Definition missing_or_empty (v : JSValue) : bool :=
  match v with
  | JUndefined => true
  | JString s => String.eqb s ""
  | _ => false
  end.

(** The element a valid record is rendered as: an object whose [title]
    and [url] are non-empty strings, the [url] one that [URL] accepts. *)
Definition valid_item (article : JSValue) : option Node :=
  match article with
  | JObject props =>
      match lookup "title" props, lookup "url" props with
      | JString title, JString uri =>
          if String.eqb title "" || String.eqb uri "" then None
          else
            match URL_hostname uri with
            | Some host =>
                Some (Div "news-item"
                        (item_markup uri (escapeHtml title)
                                     (escapeHtml (strip_www host))))
            | None => None
            end
      | _, _ => None
      end
  | _ => None
  end.

(** A record whose [title] or [url] is missing or empty. *)
Definition incomplete (article : JSValue) : bool :=
  match article with
  | JObject props =>
      missing_or_empty (lookup "title" props)
      || missing_or_empty (lookup "url" props)
  | _ => false
  end.

Definition is_valid (article : JSValue) : bool :=
  match valid_item article with
  | Some _ => true
  | None => false
  end.

(** The items of the valid records of an array, in order. *)
Definition valid_items (articles : list JSValue) : list Node :=
  flat_map
    (fun article =>
       match valid_item article with
       | Some item => [item]
       | None => []
       end)
    articles.

End Records.

(** ** Inputs of the examples *)

Module Examples.

Definition quoted (s : string) : string := dq ++ s ++ dq.

(** [{"title":t,"url":u}] as JSON text. *)
Definition record_text (t u : string) : string :=
  "{" ++ quoted "title" ++ ":" ++ quoted t ++ ","
      ++ quoted "url" ++ ":" ++ quoted u ++ "}".

Definition record (t u : string) : JSValue :=
  JObject [("title", JString t); ("url", JString u)].

(** The payload of the specification's second testable property. *)
Definition headlines_json : string :=
  "[" ++ record_text "A" "https://www.example.com/a" ++ "]".
Definition headlines_payload : string :=
  "Here are headlines: " ++ headlines_json ++ " enjoy".

(** A batch with a record that has no [url] between two valid ones. *)
Definition batch_json : string :=
  "[" ++ record_text "A" "https://www.example.com/a"
      ++ ",{" ++ quoted "title" ++ ":" ++ quoted "B" ++ "},"
      ++ record_text "C" "https://news.example.org/c" ++ "]".

(** A batch whose second record has a [url] that is no URL. *)
Definition broken_json : string :=
  "[" ++ record_text "A" "https://www.example.com/a" ++ ","
      ++ record_text "B" "not a url" ++ "]".

(** A record whose [url] carries an ampersand and double quotes, the
    quotes escaped as JSON requires. *)
Definition query_url : string :=
  "https://example.com/?a=1&b=" ++ quoted "x".
Definition query_json : string :=
  "[" ++ record_text "A" ("https://example.com/?a=1&b=\" ++ dq ++ "x\" ++ dq)
      ++ "]".

(** A client whose call resolves with the text [t], and one whose call
    rejects. *)
Definition answering (t : string) : GoogleGenAI :=
  mkClient (fun _ => Resolves (Some t)).
Definition silent : GoogleGenAI :=
  mkClient (fun _ => Resolves None).
Definition rejecting : GoogleGenAI :=
  mkClient (fun _ => Rejects (Error "fetch failed")).

(** A page that shows the result of an earlier fetch. *)
Definition page : State :=
  mkState true [Html msg_no_news] [].

End Examples.

(** ** The page's handlers and the calls in flight

    [fetchAndDisplayNews] is asynchronous: what precedes the [await] runs
    in the handler that called it, the rest when the call settles, and
    other handlers may run in between.  The page therefore carries the
    calls that have been issued and have not settled yet; an event is the
    invocation of a registered handler or the settlement of one of those
    calls. *)

Module Page.

(** The inline style of the feature card, as far as the code sets it. *)
Record CardStyle : Type := mkStyle {
  pointerEvents : string;
  opacity : string
}.

Record t : Type := mk {
  (** the module variable [ai], [None] while it is [undefined] *)
  ai : option GoogleGenAI;
  card : CardStyle;
  (** the two sections carry the class [hidden] *)
  home_hidden : bool;
  news_hidden : bool;
  (** loader, results container and console *)
  dom : State;
  (** the outcomes of the calls in flight, oldest first *)
  pending : list CallOutcome
}.

Definition with_dom (d : State) (pg : t) : t :=
  mk (ai pg) (card pg) (home_hidden pg) (news_hidden pg) d (pending pg).

(** Lines 17-26: the construction of the client, which may throw. *)
Definition init (constructed : Result GoogleGenAI) (pg : t) : t :=
  match constructed with
  | Ok client =>
      mk (Some client) (card pg) (home_hidden pg) (news_hidden pg)
         (dom pg) (pending pg)
  | Raise error =>
      mk (ai pg) (mkStyle "none" "0.5") (home_hidden pg) (news_hidden pg)
         (snd (console_error "Failed to initialize GoogleGenAI:" error
                             (dom pg)))
         (pending pg)
  end.

Inductive Event : Type :=
| ClickCard
| ClickBack
| KeydownCard (key : string)
| Settle (i : nat).

(** The list without its element of index [i]. *)
Fixpoint remove_nth {A : Type} (i : nat) (l : list A) : list A :=
  match l, i with
  | [], _ => []
  | _ :: rest, O => rest
  | x :: rest, S j => x :: remove_nth j rest
  end.

Section Handlers.

Context {P : Platform}.

(** Lines 42-107 from the point where the awaited call has settled. *)
Definition resume (outcome : CallOutcome) : Stmt :=
  try_finally
    (try_catch
       (handleOutcome outcome)
       (fun error =>
          console_error "Error fetching news:" error ;;;
          set_innerHTML msg_error))
    (showLoading false).

(** [fetchAndDisplayNews] up to its [await]: without a client the whole
    function runs; with one, lines 33-34 run and the call is issued. *)
Definition start_fetch (pg : t) : t :=
  match ai pg with
  | None => with_dom (after_fetch None (dom pg)) pg
  | Some client =>
      mk (ai pg) (card pg) (home_hidden pg) (news_hidden pg)
         (snd (prologue (dom pg)))
         (pending pg ++ [generateContent client the_request])
  end.

(** [showNewsView], lines 125-129. *)
Definition showNewsView (pg : t) : t :=
  start_fetch (mk (ai pg) (card pg) true false (dom pg) (pending pg)).

(** [showHomeView], lines 134-137. *)
Definition showHomeView (pg : t) : t :=
  mk (ai pg) (card pg) false true (dom pg) (pending pg).

(** The [keydown] listener of lines 159-163. *)
Definition onKeydown (key : string) (pg : t) : t :=
  if String.eqb key "Enter" || String.eqb key " " then showNewsView pg
  else pg.

(** The call of index [i] settles and its continuation runs. *)
Definition settle (i : nat) (pg : t) : t :=
  match nth_error (pending pg) i with
  | None => pg
  | Some outcome =>
      mk (ai pg) (card pg) (home_hidden pg) (news_hidden pg)
         (snd (resume outcome (dom pg)))
         (remove_nth i (pending pg))
  end.

Definition step (ev : Event) (pg : t) : t :=
  match ev with
  | ClickCard => showNewsView pg
  | ClickBack => showHomeView pg
  | KeydownCard key => onKeydown key pg
  | Settle i => settle i pg
  end.

(** The events of [evs], first to last. *)
Fixpoint run (evs : list Event) (pg : t) : t :=
  match evs with
  | [] => pg
  | ev :: rest => run rest (step ev pg)
  end.

(** An event that calls [showNewsView]. *)
Definition activates (ev : Event) : bool :=
  match ev with
  | ClickCard => true
  | KeydownCard key => String.eqb key "Enter" || String.eqb key " "
  | _ => false
  end.

End Handlers.

End Page.

(** ** Shapes of the rendered markup *)

(** Every [<] of [s] starts a [<br>]. *)
Fixpoint lt_only_in_br (s : string) : bool :=
  match s with
  | EmptyString => true
  | String a s' =>
      (if Ascii.eqb a Chars.lt then starts_with "br>" s' else true)
      && lt_only_in_br s'
  end.

(** What the fallback makes of one character of the response. *)
Definition fallback_char (a : ascii) : string :=
  if Ascii.eqb a Chars.lf then "<br>" else entity a.

Fixpoint fallback_body (s : string) : string :=
  match s with
  | EmptyString => EmptyString
  | String a s' => fallback_char a ++ fallback_body s'
  end.

(** A [div] of class [news-item] made by the template, its heading and
    its label without raw special characters. *)
Definition escaped_item (node : Node) : Prop :=
  exists href heading label,
    node = Div "news-item" (item_markup href heading label)
    /\ no_raw_special heading = true /\ no_raw_special label = true.


(** ** What the specification expects to see *)

(** The named entity of each of the five characters, as the
    specification words it; the one of the apostrophe is [&apos;]. *)
Definition named_entity (a : ascii) : string :=
  if Ascii.eqb a Chars.amp then "&amp;"
  else if Ascii.eqb a Chars.lt then "&lt;"
  else if Ascii.eqb a Chars.gt then "&gt;"
  else if Ascii.eqb a Chars.dquote then "&quot;"
  else if Ascii.eqb a Chars.squote then "&apos;"
  else String a "".

Fixpoint escape_named (s : string) : string :=
  match s with
  | EmptyString => EmptyString
  | String a s' => named_entity a ++ escape_named s'
  end.

(** A host name without its leading [www.], if it has one. *)
Definition drop_www (host : string) : string :=
  match host with
  | String a (String b (String c (String d rest))) =>
      if Ascii.eqb a "w"%char && Ascii.eqb b "w"%char
         && Ascii.eqb c "w"%char && Ascii.eqb d "."%char
      then rest else host
  | _ => host
  end.

(** The text of a rendered entry, written out: a link that opens in a
    new browsing context without access to its opener, around a heading
    and a paragraph. *)
Definition anchor_text (href heading label : string) : string :=
  nl ++ "                  <a href=" ++ dq ++ href ++ dq
     ++ " target=" ++ dq ++ "_blank" ++ dq
     ++ " rel=" ++ dq ++ "noopener noreferrer" ++ dq ++ ">"
  ++ nl ++ "                    <h3>" ++ heading ++ "</h3>"
  ++ nl ++ "                    <p>" ++ label ++ "</p>"
  ++ nl ++ "                  </a>"
  ++ nl ++ "                ".

(** The entry of a record with the given [url], [title] and host: the
    title and the host label escaped character by character. *)
Definition link (uri title host : string) : Node :=
  Div "news-item"
      (anchor_text uri (escape_spec title) (escape_spec (drop_www host))).

(** One of the paragraphs the page shows instead of entries. *)
Definition paragraph (m : string) : Prop :=
  m = "<p>The AI client is not initialized. Please ensure your API key is configured correctly.</p>"
  \/ m = "<p>An error occurred while fetching news. Please check the console for details.</p>"
  \/ m = "<p>No trending news could be retrieved at this time.</p>"
  \/ exists t, m = "<p>" ++ fallback_body t ++ "</p>".

Section Expected.

Context {P : Platform}.

(** A record whose [title] or [url] is falsy: missing, empty, [null],
    [false] or zero. *)
Definition falsy_field (article : JSValue) : bool :=
  match article with
  | JObject props =>
      negb (ToBoolean (lookup "title" props))
      || negb (ToBoolean (lookup "url" props))
  | _ => false
  end.

(** The entry of a valid record: [title] and [url] non-empty strings,
    the [url] one that [URL] accepts. *)
Definition shown_as (article : JSValue) : option Node :=
  match article with
  | JObject props =>
      match lookup "title" props, lookup "url" props with
      | JString title, JString uri =>
          if String.eqb title "" || String.eqb uri "" then None
          else option_map (link uri title) (URL_hostname uri)
      | _, _ => None
      end
  | _ => None
  end.

Definition is_shown (article : JSValue) : bool :=
  match shown_as article with
  | Some _ => true
  | None => false
  end.

(** The entries of the valid records of an array, in order. *)
Definition shown_items (articles : list JSValue) : list Node :=
  flat_map
    (fun article =>
       match shown_as article with
       | Some item => [item]
       | None => []
       end)
    articles.

(** An entry of some title for some [url] that [URL] accepts, labelled
    with the host of that [url]. *)
Definition news_item (node : Node) : Prop :=
  exists uri title host,
    URL_hostname uri = Some host /\ node = link uri title host.

(** At most one paragraph, in the first place, and entries. *)
Definition results_shape (nodes : list Node) : Prop :=
  Forall news_item nodes
  \/ exists m items,
       nodes = Html m :: items /\ paragraph m /\ Forall news_item items.

End Expected.

(** ** Pages of the examples *)

Module Scenes.


(** A text whose only brackets come in the reverse order. *)
Definition reversed_text : string := "see item 3] 42 [and more".

(** The home view of a page whose client answers with the text [t]. *)
Definition home (t : string) : Page.t :=
  Page.mk (Some (Examples.answering t)) (Page.mkStyle "" "")
          false true Examples.page [].

(** The page before the client is constructed. *)
Definition loaded : Page.t :=
  Page.mk None (Page.mkStyle "" "") false true Examples.page [].



(** A batch on two lines whose second record has a [url] that is no
    URL. *)
Definition broken_lines_json : string :=
  "[" ++ Examples.record_text "A" "https://www.example.com/a" ++ ","
      ++ nl ++ Examples.record_text "B" "not a url" ++ "]".

(** A response of two lines with characters to escape and no bracket. *)
Definition prose : string :=
  "Top story: <b>AT&T</b>" ++ nl ++ "no 'json' here".

(** A page on which two calls are in flight, the first to answer with
    the empty array, the second with one record. *)
Definition two_in_flight : Page.t :=
  Page.mk (Some (Examples.answering "[]")) (Page.mkStyle "" "")
          true false (mkState false [] [])
          [Resolves (Some "[]"); Resolves (Some Examples.headlines_json)].

End Scenes.

(** * Properties *)

(** ** Strings *)

Lemma append_assoc (s1 s2 s3 : string) :
  (s1 ++ s2) ++ s3 = s1 ++ (s2 ++ s3).
Proof.
  induction s1 as [|a s1 IH]; simpl; [reflexivity | now rewrite IH].
Qed.

Lemma length_append (s1 s2 : string) :
  String.length (s1 ++ s2) = (String.length s1 + String.length s2)%nat.
Proof.
  induction s1 as [|a s1 IH]; simpl; [reflexivity | now rewrite IH].
Qed.

Lemma occurs_append (c : ascii) (s1 s2 : string) :
  occurs c (s1 ++ s2) = occurs c s1 || occurs c s2.
Proof.
  induction s1 as [|a s1 IH]; simpl; [reflexivity|].
  now rewrite IH, orb_assoc.
Qed.

(** ** [escapeHtml] *)

(** Case analysis on which of the five characters [a] is, if any. *)
Ltac which_special a :=
  destruct (Ascii.eqb a Chars.amp) eqn:?Eamp;
  [|destruct (Ascii.eqb a Chars.lt) eqn:?Elt;
    [|destruct (Ascii.eqb a Chars.gt) eqn:?Egt;
      [|destruct (Ascii.eqb a Chars.dquote) eqn:?Edq;
        [|destruct (Ascii.eqb a Chars.squote) eqn:?Esq]]]].

(** The five passes act on the first character as [entity] does and
    leave the entity they produced alone. *)
Lemma escapeHtml_cons (a : ascii) (s : string) :
  escapeHtml (String a s) = entity a ++ escapeHtml s.
Proof.
  unfold escapeHtml, entity.
  cbn [replaceAll].
  which_special a;
    do 5 (cbn; rewrite ?Eamp, ?Elt, ?Egt, ?Edq, ?Esq); reflexivity.
Qed.

(** The five passes in sequence are the one-pass substitution. *)
Lemma escapeHtml_spec (s : string) : escapeHtml s = escape_spec s.
Proof.
  induction s as [|a s IH]; [reflexivity|].
  rewrite escapeHtml_cons, IH. reflexivity.
Qed.

Lemma escapeHtml_append (s1 s2 : string) :
  escapeHtml (s1 ++ s2) = escapeHtml s1 ++ escapeHtml s2.
Proof.
  induction s1 as [|a s1 IH]; [reflexivity|].
  simpl append. rewrite !escapeHtml_cons, IH, append_assoc. reflexivity.
Qed.

Lemma entity_plain (a : ascii) : special a = false -> entity a = String a "".
Proof.
  unfold special, entity. which_special a; simpl; congruence.
Qed.

Lemma entity_special (a : ascii) :
  special a = true -> occurs Chars.amp (entity a) = true.
Proof.
  unfold special, entity. which_special a; simpl; congruence.
Qed.

Lemma entity_length (a : ascii) :
  (1 <= String.length (entity a))%nat /\
  (special a = true -> 1 < String.length (entity a))%nat.
Proof.
  unfold special, entity. which_special a; simpl; split; try lia; congruence.
Qed.

Lemma entity_clean (c a : ascii) :
  special c = true -> Ascii.eqb c Chars.amp = false ->
  occurs c (entity a) = false.
Proof.
  unfold special. intros Hc Hamp. rewrite Hamp in Hc. simpl in Hc.
  destruct (Ascii.eqb_spec c Chars.lt) as [->|Nlt];
    [unfold entity; which_special a; simpl; rewrite ?Elt, ?Egt, ?Edq, ?Esq;
     reflexivity|].
  destruct (Ascii.eqb_spec c Chars.gt) as [->|Ngt];
    [unfold entity; which_special a; simpl; rewrite ?Elt, ?Egt, ?Edq, ?Esq;
     reflexivity|].
  destruct (Ascii.eqb_spec c Chars.dquote) as [->|Ndq];
    [unfold entity; which_special a; simpl; rewrite ?Elt, ?Egt, ?Edq, ?Esq;
     reflexivity|].
  destruct (Ascii.eqb_spec c Chars.squote) as [->|Nsq];
    [unfold entity; which_special a; simpl; rewrite ?Elt, ?Egt, ?Edq, ?Esq;
     reflexivity|].
  discriminate.
Qed.

Lemma escape_spec_clean (c : ascii) (s : string) :
  special c = true -> Ascii.eqb c Chars.amp = false ->
  occurs c (escape_spec s) = false.
Proof.
  intros Hc Hamp. induction s as [|a s IH]; [reflexivity|].
  simpl. now rewrite occurs_append, IH, entity_clean.
Qed.

Lemma prefix_empty (t : string) : String.prefix "" t = true.
Proof. destruct t; reflexivity. Qed.

Lemma amp_only_in_entities_entity (a : ascii) (t : string) :
  amp_only_in_entities (entity a ++ t) = amp_only_in_entities t.
Proof.
  unfold entity.
  which_special a; cbn; rewrite ?Eamp, ?prefix_empty; reflexivity.
Qed.

Lemma escape_spec_amp (s : string) :
  amp_only_in_entities (escape_spec s) = true.
Proof.
  induction s as [|a s IH]; [reflexivity|].
  simpl. now rewrite amp_only_in_entities_entity.
Qed.

Lemma escape_spec_plain (s : string) :
  has_special s = false -> escape_spec s = s.
Proof.
  induction s as [|a s IH]; [reflexivity|].
  simpl. intros H. apply orb_false_iff in H as [Ha Hs].
  now rewrite entity_plain, IH.
Qed.

Lemma escape_spec_length (s : string) :
  (String.length s <= String.length (escape_spec s))%nat /\
  (has_special s = true ->
   String.length s < String.length (escape_spec s))%nat.
Proof.
  induction s as [|a s [IH1 IH2]]; simpl; [split; [lia | discriminate]|].
  rewrite length_append. destruct (entity_length a) as [L1 L2].
  split; [lia|]. intros H. apply orb_true_iff in H as [H|H].
  - specialize (L2 H). lia.
  - specialize (IH2 H). lia.
Qed.

Lemma escape_spec_has_amp (s : string) :
  has_special s = true -> occurs Chars.amp (escape_spec s) = true.
Proof.
  induction s as [|a s IH]; simpl; [discriminate|].
  intros H. rewrite occurs_append. apply orb_true_iff in H as [H|H].
  - now rewrite entity_special.
  - rewrite IH by assumption. apply orb_true_r.
Qed.

Lemma occurs_amp_special (s : string) :
  occurs Chars.amp s = true -> has_special s = true.
Proof.
  induction s as [|a s IH]; simpl; [discriminate|].
  intros H. apply orb_true_iff in H as [H|H].
  - unfold special. now rewrite H.
  - rewrite IH by assumption. apply orb_true_r.
Qed.

(** The output of [escapeHtml] has no raw occurrence of the five
    characters. *)
Lemma escapeHtml_no_raw (s : string) : no_raw_special (escapeHtml s) = true.
Proof.
  rewrite escapeHtml_spec. unfold no_raw_special.
  rewrite !escape_spec_clean by reflexivity.
  rewrite escape_spec_amp. reflexivity.
Qed.

Lemma replaceAll_append (c : ascii) (r s1 s2 : string) :
  replaceAll c r (s1 ++ s2) = replaceAll c r s1 ++ replaceAll c r s2.
Proof.
  induction s1 as [|a s1 IH]; simpl; [reflexivity|].
  destruct (Ascii.eqb a c); rewrite IH; [|reflexivity].
  now rewrite append_assoc.
Qed.

Lemma replaceAll_lf_entity (a : ascii) :
  replaceAll Chars.lf "<br>" (entity a) = fallback_char a.
Proof.
  unfold fallback_char, entity.
  destruct (Ascii.eqb_spec a Chars.lf) as [->|Hlf]; [reflexivity|].
  which_special a; try reflexivity.
  simpl. apply Ascii.eqb_neq in Hlf. now rewrite Hlf.
Qed.

(** The two passes of the fallback are one pass over the response. *)
Lemma fallback_one_pass (t : string) :
  replaceAll Chars.lf "<br>" (escapeHtml t) = fallback_body t.
Proof.
  rewrite escapeHtml_spec. induction t as [|a t IH]; [reflexivity|].
  simpl. now rewrite replaceAll_append, replaceAll_lf_entity, IH.
Qed.

Lemma entity_named (a : ascii) :
  Ascii.eqb a Chars.squote = false -> entity a = named_entity a.
Proof.
  intros H. unfold entity, named_entity. now rewrite H.
Qed.

Lemma escape_spec_named (s : string) :
  occurs Chars.squote s = false -> escape_spec s = escape_named s.
Proof.
  induction s as [|a s IH]; [reflexivity|]. simpl.
  intros H. apply orb_false_iff in H as [Ha Hs].
  now rewrite (entity_named _ Ha), IH.
Qed.

(** C2, as the code has it: [escapeHtml] replaces each of the five
    characters by exactly one entity and nothing else, in one
    left-to-right reading of the input: [&amp;], [&lt;], [&gt;] and
    [&quot;], which are the named entities, and for the apostrophe the
    numeric reference [&#039;].  On a string without an apostrophe the
    output is the one written with named entities; the output has no raw
    occurrence of the five characters; and on an input with none of them
    it is the identity. *)
Theorem escapeHtml_correct (s : string) :
  escapeHtml s = escape_spec s
  /\ (occurs Chars.squote s = false -> escapeHtml s = escape_named s)
  /\ no_raw_special (escapeHtml s) = true
  /\ (has_special s = false -> escapeHtml s = s).
Proof.
  split; [apply escapeHtml_spec|].
  split; [rewrite escapeHtml_spec; apply escape_spec_named|].
  split; [apply escapeHtml_no_raw|].
  rewrite escapeHtml_spec. apply escape_spec_plain.
Qed.

Lemma escapeHtml_correct_witness :
  has_special "news" = false
  /\ escapeHtml "news" = "news"
  /\ escapeHtml ("Q&A: <b>5 > 3</b>" ++ dq)
     = "Q&amp;A: &lt;b&gt;5 &gt; 3&lt;/b&gt;&quot;"
  /\ escapeHtml "it's" = "it&#039;s".
Proof.
  split; [reflexivity|]. split; [|split].
  - apply (escapeHtml_correct "news"). reflexivity.
  - rewrite (proj1 (proj2 (escapeHtml_correct _))); reflexivity.
  - rewrite (proj1 (escapeHtml_correct _)). reflexivity.
Defined.

(** C2, as the claim words it, fails on the apostrophe: the code writes
    [&#039;], which is not the named entity [&apos;]. *)
Lemma escapeHtml_apostrophe_not_named :
  escapeHtml "'" = "&#039;" /\ escapeHtml "'" <> escape_named "'".
Proof. split; [reflexivity | discriminate]. Qed.

(** C7: escaping is not idempotent: on every string that contains one of
    the five characters a second application changes the result of the
    first, whose entities all start with an ampersand that is escaped
    again. *)
Theorem escapeHtml_twice_differs (s : string) :
  has_special s = true -> escapeHtml (escapeHtml s) <> escapeHtml s.
Proof.
  intros H. rewrite !escapeHtml_spec.
  assert (Hamp : has_special (escape_spec s) = true).
  { apply occurs_amp_special, escape_spec_has_amp, H. }
  destruct (escape_spec_length (escape_spec s)) as [_ Hlt].
  specialize (Hlt Hamp). intros Heq. rewrite Heq in Hlt. lia.
Qed.

Lemma escapeHtml_twice_differs_witness :
  has_special "&" = true /\ escapeHtml (escapeHtml "&") <> escapeHtml "&".
Proof.
  split; [reflexivity|]. apply (escapeHtml_twice_differs "&"). reflexivity.
Defined.

(** The double encoding itself. *)
Example escapeHtml_twice_amp : escapeHtml (escapeHtml "&") = "&amp;amp;".
Proof. reflexivity. Qed.

(** Without any of the five characters a second application changes
    nothing. *)
Lemma escapeHtml_twice_plain (s : string) :
  has_special s = false -> escapeHtml (escapeHtml s) = escapeHtml s.
Proof.
  intros H. rewrite !escapeHtml_spec, !(escape_spec_plain s H). reflexivity.
Qed.

(** ** Values *)

(** Induction on a value with the hypothesis for every element of an
    array and every property of an object. *)
Lemma JSValue_nested_ind (Q : JSValue -> Prop) :
  Q JUndefined -> Q JNull -> (forall b, Q (JBool b)) ->
  (forall n, Q (JNumber n)) -> (forall s, Q (JString s)) ->
  (forall items, Forall Q items -> Q (JArray items)) ->
  (forall props, Forall (fun kv => Q (snd kv)) props -> Q (JObject props)) ->
  forall v, Q v.
Proof.
  intros HU HN HB HNum HS HA HO.
  fix IH 1.
  intros [| |b|n|s|items|props];
    [exact HU | exact HN | apply HB | apply HNum | apply HS | | ].
  - apply HA. revert items. fix IHl 1. intros [|x l]; constructor.
    + apply IH.
    + apply IHl.
  - apply HO. revert props. fix IHl 1. intros [|[k x] l]; constructor.
    + apply IH.
    + apply IHl.
Qed.

Lemma join_with_error (f : JSValue -> Result string) (l : list JSValue)
      (e : JSError) :
  Forall (fun x => forall e', f x = Raise e' -> e' = TypeError) l ->
  join_with f l = Raise e -> e = TypeError.
Proof.
  induction 1 as [|x l Hx Hl IH]; simpl; [discriminate|].
  destruct l as [|y l']; [apply Hx|].
  destruct (f x) as [sx|e0] eqn:Ex; simpl.
  - change (match join_with f (y :: l') with
            | Ok a => Ok (sx ++ "," ++ a)
            | Raise e1 => Raise e1
            end = Raise e -> e = TypeError).
    destruct (join_with f (y :: l')) as [sr|e1]; [discriminate|].
    intros H; injection H as <-. now apply IH.
  - intros H; injection H as <-. now apply Hx.
Qed.

Lemma substring_all (s : string) : String.substring 0 (String.length s) s = s.
Proof. induction s as [|a s IH]; simpl; [reflexivity | now rewrite IH]. Qed.

Lemma prefix_cons (a b : ascii) (p s : string) :
  String.prefix (String a p) (String b s)
  = if Ascii.eqb a b then String.prefix p s else false.
Proof.
  cbn [String.prefix]. destruct (ascii_dec a b) as [->|N].
  - now rewrite Ascii.eqb_refl.
  - apply Ascii.eqb_neq in N. now rewrite N.
Qed.

(** The regular expression of line 83 removes what [drop_www] drops. *)
Lemma strip_www_drop (s : string) : strip_www s = drop_www s.
Proof.
  unfold strip_www, starts_with, drop_www.
  destruct s as [|a s]; [reflexivity|]. rewrite prefix_cons.
  destruct (Ascii.eqb_spec "w"%char a) as [<-|Na].
  2:{ apply not_eq_sym, Ascii.eqb_neq in Na.
      destruct s as [|b [|c [|d rest]]]; try reflexivity.
      now rewrite Na. }
  destruct s as [|b s]; [reflexivity|]. rewrite prefix_cons.
  destruct (Ascii.eqb_spec "w"%char b) as [<-|Nb].
  2:{ apply not_eq_sym, Ascii.eqb_neq in Nb.
      destruct s as [|c [|d rest]]; try reflexivity.
      now rewrite Nb. }
  destruct s as [|c s]; [reflexivity|]. rewrite prefix_cons.
  destruct (Ascii.eqb_spec "w"%char c) as [<-|Nc].
  2:{ apply not_eq_sym, Ascii.eqb_neq in Nc.
      destruct s as [|d rest]; try reflexivity.
      now rewrite Nc, andb_false_r. }
  destruct s as [|d s]; [reflexivity|]. rewrite prefix_cons.
  destruct (Ascii.eqb_spec "."%char d) as [<-|Nd].
  2:{ apply not_eq_sym, Ascii.eqb_neq in Nd.
      now rewrite Nd, andb_false_r. }
  rewrite prefix_empty. simpl. rewrite Nat.sub_0_r. apply substring_all.
Qed.

(** The template of lines 85-90 is the text written out. *)
Lemma item_markup_text (href heading label : string) :
  item_markup href heading label = anchor_text href heading label.
Proof. reflexivity. Qed.

Section FetcherProperties.

Context {P : Platform}.

(** The only error a string conversion raises is a [TypeError]. *)
Lemma ToString_error (v : JSValue) (e : JSError) :
  ToString v = Raise e -> e = TypeError.
Proof.
  revert e. induction v as [| |b|n|s|items IH|props IH]
    using JSValue_nested_ind; intros e; simpl; try discriminate.
  - destruct b; discriminate.
  - apply join_with_error.
    eapply Forall_impl; [|exact IH]. intros x Hx e'.
    destruct x; try discriminate; apply Hx.
  - destruct (has_own "toString" props); [|discriminate].
    now intros H; injection H as <-.
Qed.

Lemma Get_error (v : JSValue) (k : string) (e : JSError) :
  Get v k = Raise e -> e = TypeError.
Proof.
  destruct v; simpl; try discriminate; now intros H; injection H as <-.
Qed.

(** Whatever a record is, the loop body can only throw a [TypeError]. *)
Lemma renderArticle_error (article : JSValue) (e : JSError) :
  renderArticle article = Raise e -> e = TypeError.
Proof.
  unfold renderArticle, hostname_of.
  destruct (Get article "title") as [t|e0] eqn:Et; simpl;
    [|intros H; injection H as <-; eapply Get_error; eassumption].
  destruct (ToBoolean t); simpl; [|discriminate].
  destruct (Get article "url") as [u|e0] eqn:Eu; simpl;
    [|intros H; injection H as <-; eapply Get_error; eassumption].
  destruct (ToBoolean u); simpl; [|discriminate].
  destruct (ToString u) as [su|e0] eqn:Es; simpl;
    [|intros H; injection H as <-; eapply ToString_error; eassumption].
  destruct (URL_hostname su); simpl;
    [|now intros H; injection H as <-].
  destruct t; simpl; try discriminate; now intros H; injection H as <-.
Qed.

Lemma missing_or_empty_falsy (v : JSValue) :
  missing_or_empty v = true -> ToBoolean v = false.
Proof.
  destruct v; simpl; try discriminate; [reflexivity|].
  now intros ->.
Qed.

(** A record missing a field, or with an empty one, passes the loop
    body without effect. *)
Lemma renderArticle_incomplete (props : list (string * JSValue)) :
  missing_or_empty (lookup "title" props)
  || missing_or_empty (lookup "url" props) = true ->
  renderArticle (JObject props) = Ok None.
Proof.
  unfold renderArticle. simpl. intros H.
  destruct (ToBoolean (lookup "title" props)) eqn:Et; simpl;
    [|reflexivity].
  apply orb_true_iff in H as [H|H];
    apply missing_or_empty_falsy in H; [congruence|].
  rewrite H. reflexivity.
Qed.

(** A valid record is rendered as [valid_item] says. *)
Lemma renderArticle_valid (article : JSValue) (item : Node) :
  valid_item article = Some item ->
  renderArticle article = Ok (Some item).
Proof.
  destruct article as [| |b|n|s|l|props]; try discriminate.
  unfold valid_item, renderArticle, hostname_of. simpl.
  destruct (lookup "title" props) as [| |b|n|t|l|o]; try discriminate.
  destruct (lookup "url" props) as [| |b|n|u|l|o]; try discriminate.
  simpl.
  destruct (String.eqb t ""); [discriminate|].
  destruct (String.eqb u ""); [discriminate|]. simpl.
  destruct (URL_hostname u) as [h|]; [|discriminate]. simpl.
  intros H; injection H as <-. reflexivity.
Qed.

Lemma appended_nil (st : State) : appended [] st = st.
Proof. destruct st. unfold appended. simpl. now rewrite app_nil_r. Qed.

Lemma appended_cons (x : Node) (items : list Node) (st : State) :
  appended items (appended [x] st) = appended (x :: items) st.
Proof. unfold appended. simpl. now rewrite <- app_assoc. Qed.

(** The loop over a prefix, then over the rest. *)
Lemma forOf_app (l1 l2 : list JSValue) (st : State) :
  forOf (l1 ++ l2) st =
  match forOf l1 st with
  | (Normal, st') => forOf l2 st'
  | abrupt => abrupt
  end.
Proof.
  revert st. induction l1 as [|a l1 IH]; intros st; simpl; [reflexivity|].
  destruct (renderArticle a) as [[item|]|e]; simpl.
  - unfold seq, appendChild. apply IH.
  - apply IH.
  - reflexivity.
Qed.

(** Skipping a record is invisible: the loop behaves as if the record
    were not in the array. *)
Lemma forOf_skip (l1 l2 : list JSValue) (a : JSValue) (st : State) :
  renderArticle a = Ok None ->
  forOf (l1 ++ a :: l2) st = forOf (l1 ++ l2) st.
Proof.
  intros H. rewrite !forOf_app. simpl. rewrite H. reflexivity.
Qed.

(** Over valid records the loop appends their elements in order. *)
Lemma forOf_valid (l : list JSValue) (items : list Node) (st : State) :
  map valid_item l = map Some items ->
  forOf l st = (Normal, appended items st).
Proof.
  revert items st. induction l as [|a l IH]; intros [|x items] st;
    simpl; try discriminate.
  - intros _. now rewrite appended_nil.
  - intros H. injection H as Ha Hl.
    rewrite (renderArticle_valid _ _ Ha).
    unfold seq, appendChild. rewrite (IH _ _ Hl).
    now rewrite <- appended_cons.
Qed.

(** An incomplete record is not a valid one. *)
Lemma incomplete_not_valid (props : list (string * JSValue)) :
  incomplete (JObject props) = true -> valid_item (JObject props) = None.
Proof.
  simpl. intros H.
  destruct (lookup "title" props) as [| |b|n|t|l|o]; try reflexivity;
    destruct (lookup "url" props) as [| |b'|n'|u|l'|o']; try reflexivity.
  simpl in H. now rewrite H.
Qed.

(** Over valid and incomplete records the loop appends the items of the
    valid ones, in order, and completes normally. *)
Lemma forOf_mixed (l : list JSValue) (st : State) :
  forallb (fun a => incomplete a || is_valid a) l = true ->
  forOf l st = (Normal, appended (valid_items l) st).
Proof.
  revert st. induction l as [|a l IH]; intros st; simpl.
  - intros _. now rewrite appended_nil.
  - intros H. apply andb_true_iff in H as [Ha Hl].
    unfold is_valid in Ha.
    destruct (valid_item a) as [item|] eqn:Ev.
    + rewrite (renderArticle_valid _ _ Ev).
      unfold seq, appendChild. change (mkState _ _ _) with (appended [item] st).
      rewrite (IH _ Hl). simpl. now rewrite appended_cons.
    + rewrite orb_false_r in Ha. destruct a; try discriminate.
      rewrite (renderArticle_incomplete _ Ha). simpl. now apply IH.
Qed.

(** What the code renders a valid record as is its expected entry. *)
Lemma valid_item_shown (article : JSValue) :
  valid_item article = shown_as article.
Proof.
  destruct article as [| |b|n|s|l|props]; try reflexivity. simpl.
  destruct (lookup "title" props) as [| |b|n|t|l|o]; try reflexivity.
  destruct (lookup "url" props) as [| |b|n|u|l|o]; try reflexivity.
  destruct (String.eqb t "" || String.eqb u ""); [reflexivity|].
  destruct (URL_hostname u) as [h|]; [|reflexivity]. simpl.
  unfold link.
  now rewrite item_markup_text, !escapeHtml_spec, strip_www_drop.
Qed.

Lemma valid_items_shown (l : list JSValue) : valid_items l = shown_items l.
Proof.
  unfold valid_items, shown_items.
  induction l as [|a l IH]; [reflexivity|]. simpl.
  now rewrite valid_item_shown, IH.
Qed.

(** A record with a falsy field passes the loop body without effect. *)
Lemma renderArticle_falsy (a : JSValue) :
  falsy_field a = true -> renderArticle a = Ok None.
Proof.
  destruct a as [| |b|n|s|l|props]; try discriminate.
  unfold falsy_field, renderArticle. simpl. intros H.
  destruct (ToBoolean (lookup "title" props)); simpl; [|reflexivity].
  simpl in H. now rewrite H.
Qed.

(** Over valid records and records with a falsy field the loop appends
    the expected entries of the valid ones, in order, and completes
    normally. *)
Lemma forOf_shown (l : list JSValue) (st : State) :
  forallb (fun a => falsy_field a || is_shown a) l = true ->
  forOf l st = (Normal, appended (shown_items l) st).
Proof.
  revert st. induction l as [|a l IH]; intros st; simpl.
  - intros _. now rewrite appended_nil.
  - intros H. apply andb_true_iff in H as [Ha Hl].
    unfold is_shown in Ha. unfold shown_items. simpl.
    fold (shown_items l).
    destruct (shown_as a) as [item|] eqn:Ev.
    + rewrite <- valid_item_shown in Ev.
      rewrite (renderArticle_valid _ _ Ev).
      unfold seq, appendChild.
      change (mkState _ _ _) with (appended [item] st).
      rewrite (IH _ Hl). simpl. now rewrite appended_cons.
    + rewrite orb_false_r in Ha.
      rewrite (renderArticle_falsy _ Ha). simpl. now apply IH.
Qed.

(** The loop completes normally or by a [TypeError]; either way it has
    only appended elements to the results container. *)
Lemma forOf_completion (l : list JSValue) (st : State) :
  exists rendered,
    forOf l st = (Normal, appended rendered st)
    \/ forOf l st = (Throw TypeError, appended rendered st).
Proof.
  revert st. induction l as [|a l IH]; intros st; simpl.
  - exists []. rewrite appended_nil. auto.
  - destruct (renderArticle a) as [[item|]|e] eqn:E.
    + unfold seq, appendChild.
      destruct (IH (appended [item] st)) as (rendered & H).
      exists (item :: rendered). rewrite <- appended_cons. exact H.
    + apply IH.
    + apply renderArticle_error in E as ->.
      exists []. rewrite appended_nil. auto.
Qed.

(** A record on which the body throws makes the loop throw. *)
Lemma forOf_throws (l : list JSValue) (a : JSValue) (e : JSError)
      (st : State) :
  In a l -> renderArticle a = Raise e ->
  exists rendered, forOf l st = (Throw TypeError, appended rendered st).
Proof.
  intros Hin Ha. apply in_split in Hin as (l1 & l2 & ->).
  rewrite forOf_app.
  destruct (forOf_completion l1 st) as (rendered & [H|H]); rewrite H.
  - simpl. rewrite Ha. apply renderArticle_error in Ha as ->.
    now exists rendered.
  - now exists rendered.
Qed.

End FetcherProperties.

(** ** [fetchAndDisplayNews] *)

Section FetchProperties.

Context {P : Platform}.

Lemma prologue_run (st : State) : prologue st = (Normal, in_flight st).
Proof. reflexivity. Qed.

(** The [finally] block hides the loader however the body completes. *)
Lemma finally_hides_loader (body : Stmt) (st : State) :
  loader_hidden (snd (try_finally body (showLoading false) st)) = true.
Proof.
  unfold try_finally. destruct (body st) as [c st']. reflexivity.
Qed.

Lemma extractJson_nonempty (t jsonString : string) :
  extractJson t = Ok jsonString -> t <> "".
Proof. intros H ->. discriminate. Qed.

(** The run on a non-empty response text, in terms of the inner [try]
    body: a throw there is logged and replaced by the fallback, any other
    completion keeps what the body rendered; the loader ends hidden. *)
Lemma fetch_resolved (client : GoogleGenAI) (t : string) (st : State) :
  generateContent client the_request = Resolves (Some t) -> t <> "" ->
  fetchAndDisplayNews (Some client) st =
  match parseAndRender t (in_flight st) with
  | (Throw e, st') =>
      (Normal,
       mkState true [Html (fallback_markup t)]
         (console st' ++ [("Failed to parse JSON response:", e)]))
  | (c, st') => (c, mkState true (newsResults st') (console st'))
  end.
Proof.
  intros Hcall Ht.
  unfold fetchAndDisplayNews, seq. rewrite prologue_run.
  unfold try_finally, try_catch at 1. rewrite Hcall. unfold handleOutcome.
  destruct t as [|a t]; [contradiction|].
  unfold try_catch.
  destruct (parseAndRender (String a t) (in_flight st)) as [[| |e] st'];
    try reflexivity.
Qed.

(** The run when the call gives no usable text. *)
Lemma fetch_failed (client : GoogleGenAI) (st : State) :
  (exists reason, generateContent client the_request = Rejects reason)
  \/ generateContent client the_request = Resolves None
  \/ generateContent client the_request = Resolves (Some "") ->
  exists e,
    fetchAndDisplayNews (Some client) st =
    (Normal,
     mkState true [Html msg_error]
       (console st ++ [("Error fetching news:", e)])).
Proof.
  unfold fetchAndDisplayNews, seq. rewrite prologue_run.
  unfold try_finally, try_catch.
  intros [[reason H]|[H|H]]; rewrite H; simpl; eexists; reflexivity.
Qed.

(** While the call is in flight the loading flag is set. *)
Lemma loading_in_flight (st : State) : loading (snd (prologue st)) = true.
Proof. reflexivity. Qed.

(** C3: whatever the client, the outcome of the call and the text it
    returns (no client, rejection, empty text, text that fails to parse,
    an empty array, rendered records), the loading flag is false when
    [fetchAndDisplayNews] has run. *)
Theorem loading_cleared_on_every_exit (ai : option GoogleGenAI) (st : State) :
  loading (after_fetch ai st) = false.
Proof.
  unfold loading, after_fetch, fetchAndDisplayNews, seq.
  rewrite prologue_run. destruct ai as [client|].
  - now rewrite finally_hides_loader.
  - reflexivity.
Qed.

(** X9: no exception leaves [fetchAndDisplayNews], whatever the client,
    the outcome of the call and the platform do: the function completes
    normally or by one of its two [return]s, so the promise its callers
    drop is never rejected. *)
Lemma fetch_never_throws (ai : option GoogleGenAI) (st : State) (e : JSError) :
  fst (fetchAndDisplayNews ai st) <> Throw e.
Proof.
  unfold fetchAndDisplayNews, seq. rewrite prologue_run.
  destruct ai as [client|]; [|discriminate].
  unfold try_finally, try_catch, handleOutcome.
  destruct (generateContent client the_request) as [r|[[|a t]|]];
    try discriminate.
  unfold try_catch.
  destruct (parseAndRender (String a t) (in_flight st)) as [[| |e'] st'];
    discriminate.
Qed.

(** C9: when the call rejects, or resolves with a text that is
    [undefined] or empty, the results container holds the generic error
    message and nothing else; the error went to the console. *)
Theorem empty_or_rejected_shows_error (client : GoogleGenAI) (st : State) :
  (exists reason, generateContent client the_request = Rejects reason)
  \/ generateContent client the_request = Resolves None
  \/ generateContent client the_request = Resolves (Some "") ->
  newsResults (after_fetch (Some client) st) =
    [Html "<p>An error occurred while fetching news. Please check the console for details.</p>"]
  /\ (exists error,
        console (after_fetch (Some client) st) =
        (console st ++ [("Error fetching news:", error)])%list)
  /\ loading (after_fetch (Some client) st) = false.
Proof.
  intros H. unfold after_fetch, loading.
  destruct (fetch_failed client st H) as [e ->].
  repeat split; try reflexivity. now exists e.
Qed.

(** C8: when the extracted text parses to an array without elements, the
    results container holds the message that no news could be retrieved,
    nothing is logged as an error, and the loading flag is false although
    the function returned from inside the [try]. *)
Theorem empty_array_shows_no_news
        (client : GoogleGenAI) (st : State) (textResponse jsonString : string) :
  generateContent client the_request = Resolves (Some textResponse) ->
  extractJson textResponse = Ok jsonString ->
  JSON_parse jsonString = Some (JArray []) ->
  fst (fetchAndDisplayNews (Some client) st) = Return
  /\ newsResults (after_fetch (Some client) st) =
       [Html "<p>No trending news could be retrieved at this time.</p>"]
  /\ console (after_fetch (Some client) st) = console st
  /\ loading (after_fetch (Some client) st) = false.
Proof.
  intros Hcall Hx Hparse. unfold after_fetch, loading.
  rewrite (fetch_resolved _ _ _ Hcall (extractJson_nonempty _ _ Hx)).
  unfold parseAndRender. rewrite Hx, Hparse. repeat split; reflexivity.
Qed.

(** The fallback paragraph of line 98, read in one pass. *)
Lemma fallback_markup_text (t : string) :
  fallback_markup t = "<p>" ++ fallback_body t ++ "</p>".
Proof. unfold fallback_markup. now rewrite fallback_one_pass. Qed.

(** C6: on a non-empty response text without [[] or without []], and on
    one whose extracted part [JSON.parse] rejects, the results container
    holds one paragraph with the raw text, each of its five special
    characters written as an entity and each line feed as [<br>]; the
    failure is logged as a parse failure and the handler of the generic
    error message does not run. *)
Theorem unparseable_text_shown_raw
        (client : GoogleGenAI) (st : State) (textResponse : string) :
  generateContent client the_request = Resolves (Some textResponse) ->
  textResponse <> "" ->
  indexOf textResponse "["%char = -1
  \/ lastIndexOf textResponse "]"%char = -1
  \/ (exists jsonString,
        extractJson textResponse = Ok jsonString
        /\ JSON_parse jsonString = None) ->
  newsResults (after_fetch (Some client) st) =
    [Html ("<p>" ++ fallback_body textResponse ++ "</p>")]
  /\ (exists parseError,
        console (after_fetch (Some client) st) =
        (console st ++ [("Failed to parse JSON response:", parseError)])%list)
  /\ loading (after_fetch (Some client) st) = false.
Proof.
  intros Hcall Ht Hbad. unfold after_fetch, loading.
  rewrite (fetch_resolved _ _ _ Hcall Ht).
  assert (Hthrow : exists e,
             parseAndRender textResponse (in_flight st)
             = (Throw e, in_flight st)).
  { unfold parseAndRender. destruct Hbad as [H|[H|(j & Hx & Hp)]].
    - unfold extractJson. rewrite H. simpl. eexists; reflexivity.
    - unfold extractJson. rewrite H, Z.eqb_refl, orb_true_r.
      eexists; reflexivity.
    - rewrite Hx, Hp. eexists; reflexivity. }
  destruct Hthrow as [e ->]. rewrite fallback_markup_text. simpl.
  repeat split; try reflexivity. now exists e.
Qed.

(** What the loop body appends: the heading and the label have been
    escaped, the [href] is the string conversion of the [url] as it is. *)
Lemma rendered_holes (article : JSValue) (item : Node) :
  renderArticle article = Ok (Some item) ->
  exists uri href heading label,
    Get article "url" = Ok uri /\ ToString uri = Ok href
    /\ item = Div "news-item" (item_markup href heading label)
    /\ no_raw_special heading = true /\ no_raw_special label = true.
Proof.
  unfold renderArticle, hostname_of.
  destruct (Get article "title") as [t|] eqn:Et; simpl; [|discriminate].
  destruct (ToBoolean t); simpl; [|discriminate].
  destruct (Get article "url") as [u|] eqn:Eu; simpl; [|discriminate].
  destruct (ToBoolean u); simpl; [|discriminate].
  destruct (ToString u) as [su|] eqn:Es; simpl; [|discriminate].
  destruct (URL_hostname su) as [h|]; simpl; [|discriminate].
  destruct t; simpl; try discriminate.
  intros H; injection H as <-.
  exists u, su, (escapeHtml s), (escapeHtml (strip_www h)).
  repeat split; try assumption; apply escapeHtml_no_raw.
Qed.

(** On an array with an element the inner [try] body is the loop. *)
Lemma parseAndRender_array
      (textResponse jsonString : string) (articles : list JSValue) (st : State) :
  extractJson textResponse = Ok jsonString ->
  JSON_parse jsonString = Some (JArray articles) ->
  articles <> [] ->
  parseAndRender textResponse st = forOf articles st.
Proof.
  intros Hx Hp Hne. unfold parseAndRender. rewrite Hx, Hp.
  destruct articles; [contradiction | reflexivity].
Qed.

(** C4: the text between the first [[] and the last []] of the example
    payload is the array alone; given that [JSON.parse] reads it as the
    one record and that [URL] finds the host [www.example.com], the
    results container holds exactly one entry: a link to
    [https://www.example.com/a] with the heading [A] and the label
    [example.com]. *)
Theorem headlines_example (client : GoogleGenAI) (st : State) :
  generateContent client the_request
    = Resolves (Some Examples.headlines_payload) ->
  JSON_parse Examples.headlines_json
    = Some (JArray [Examples.record "A" "https://www.example.com/a"]) ->
  URL_hostname "https://www.example.com/a" = Some "www.example.com" ->
  extractJson Examples.headlines_payload = Ok Examples.headlines_json
  /\ strip_www "www.example.com" = "example.com"
  /\ newsResults (after_fetch (Some client) st) =
       [Div "news-item"
            (nl ++ "                  <a href=" ++ dq
                ++ "https://www.example.com/a" ++ dq
                ++ " target=" ++ dq ++ "_blank" ++ dq
                ++ " rel=" ++ dq ++ "noopener noreferrer" ++ dq ++ ">"
             ++ nl ++ "                    <h3>A</h3>"
             ++ nl ++ "                    <p>example.com</p>"
             ++ nl ++ "                  </a>"
             ++ nl ++ "                ")]
  /\ loading (after_fetch (Some client) st) = false.
Proof.
  intros Hcall Hparse Hhost.
  assert (Hx : extractJson Examples.headlines_payload
               = Ok Examples.headlines_json) by reflexivity.
  split; [exact Hx|]. split; [reflexivity|].
  unfold after_fetch, loading.
  rewrite (fetch_resolved _ _ _ Hcall (extractJson_nonempty _ _ Hx)).
  rewrite (parseAndRender_array _ _ _ _ Hx Hparse) by discriminate.
  rewrite forOf_shown by (simpl; unfold is_shown; simpl; now rewrite Hhost).
  unfold shown_items. simpl. rewrite Hhost. split; reflexivity.
Qed.



(** C10: when the array holds a record with a non-empty [title] and a
    non-empty [url] that [URL] rejects, the loop throws a [TypeError] and
    the handler replaces whatever the container held by one paragraph
    with the raw response, its special characters written as entities
    and its line feeds as [<br>].  When the records before that one are
    valid or have a falsy field, the entries of the valid ones are in
    the container at the throw, and none of them is left at the end. *)
Theorem unparseable_url_discards_batch
        (client : GoogleGenAI) (st : State) (textResponse jsonString : string)
        (pre post : list JSValue) (props : list (string * JSValue))
        (uri : string) :
  generateContent client the_request = Resolves (Some textResponse) ->
  extractJson textResponse = Ok jsonString ->
  JSON_parse jsonString = Some (JArray (pre ++ JObject props :: post)) ->
  ToBoolean (lookup "title" props) = true ->
  lookup "url" props = JString uri -> uri <> "" ->
  URL_hostname uri = None ->
  (exists rendered,
     parseAndRender textResponse (in_flight st)
     = (Throw TypeError, appended rendered (in_flight st)))
  /\ (forallb (fun a => falsy_field a || is_shown a) pre = true ->
      parseAndRender textResponse (in_flight st)
      = (Throw TypeError, appended (shown_items pre) (in_flight st))
      /\ forall item, In item (shown_items pre) ->
                      ~ In item (newsResults (after_fetch (Some client) st)))
  /\ newsResults (after_fetch (Some client) st) =
       [Html ("<p>" ++ fallback_body textResponse ++ "</p>")]
  /\ console (after_fetch (Some client) st) =
       (console st ++ [("Failed to parse JSON response:", TypeError)])%list
  /\ loading (after_fetch (Some client) st) = false.
Proof.
  intros Hcall Hx Hparse Htitle Hurl Hne Hhost.
  assert (Hraise : renderArticle (JObject props) = Raise TypeError).
  { unfold renderArticle, hostname_of. simpl.
    rewrite Htitle, Hurl. simpl.
    apply String.eqb_neq in Hne. rewrite Hne. simpl.
    rewrite Hhost. reflexivity. }
  assert (Hart : (pre ++ JObject props :: post)%list <> [])
    by (destruct pre; discriminate).
  assert (Hin : In (JObject props) (pre ++ JObject props :: post)%list)
    by (apply in_or_app; right; now left).
  destruct (forOf_throws _ _ _ (in_flight st) Hin Hraise)
    as (rendered & Hloop).
  rewrite <- (parseAndRender_array _ _ _ _ Hx Hparse Hart) in Hloop.
  assert (Hfinal : newsResults (after_fetch (Some client) st) =
                   [Html ("<p>" ++ fallback_body textResponse ++ "</p>")]).
  { unfold after_fetch.
    rewrite (fetch_resolved _ _ _ Hcall (extractJson_nonempty _ _ Hx)), Hloop.
    now rewrite fallback_markup_text. }
  split; [now exists rendered|]. split; [|split; [exact Hfinal|]].
  - intros Hpre. split.
    + rewrite (parseAndRender_array _ _ _ _ Hx Hparse Hart).
      rewrite forOf_app, (forOf_shown _ _ Hpre). simpl.
      now rewrite Hraise.
    + intros item Hitem. rewrite Hfinal. intros [Heq|[]].
      unfold shown_items in Hitem. apply in_flat_map in Hitem
        as (a & _ & Ha).
      destruct a as [| |b|n|s|l|ps]; try contradiction. simpl in Ha.
      destruct (lookup "title" ps) as [| |b|n|t|l|o]; try contradiction.
      destruct (lookup "url" ps) as [| |b|n|u|l|o]; try contradiction.
      destruct (String.eqb t "" || String.eqb u ""); [contradiction|].
      destruct (URL_hostname u); [|contradiction].
      destruct Ha as [<-|[]]. discriminate.
  - unfold after_fetch, loading.
    rewrite (fetch_resolved _ _ _ Hcall (extractJson_nonempty _ _ Hx)), Hloop.
    split; reflexivity.
Qed.

End FetchProperties.

(** ** The examples, run on the executable platform *)

#[local] Existing Instance Model.platform.

(** The example payload, its double quotes shown as apostrophes. *)
Example headlines_payload_text :
  replaceAll Chars.dquote "'" Examples.headlines_payload
  = "Here are headlines: [{'title':'A','url':'https://www.example.com/a'}] enjoy".
Proof. reflexivity. Qed.

(** The text of the record with an ampersand and quotes in its [url],
    shown the same way. *)
Example query_json_text :
  replaceAll Chars.dquote "'" Examples.query_json
  = "[{'title':'A','url':'https://example.com/?a=1&b=\'x\''}]".
Proof. reflexivity. Qed.

Lemma headlines_example_witness :
  JSON_parse Examples.headlines_json
    = Some (JArray [Examples.record "A" "https://www.example.com/a"])
  /\ URL_hostname "https://www.example.com/a" = Some "www.example.com"
  /\ replaceAll Chars.dquote "'"
       (match
           newsResults
             (after_fetch
                (Some (Examples.answering Examples.headlines_payload))
                Examples.page)
         with
         | [Div _ inner] => inner
         | _ => ""
         end)
     = "
                  <a href='https://www.example.com/a' target='_blank' rel='noopener noreferrer'>
                    <h3>A</h3>
                    <p>example.com</p>
                  </a>
                ".
Proof.
  split; [vm_compute; reflexivity|]. split; [vm_compute; reflexivity|].
  destruct (headlines_example
              (Examples.answering Examples.headlines_payload) Examples.page)
    as (_ & _ & Hres & _); [reflexivity | vm_compute; reflexivity
                           | vm_compute; reflexivity |].
  rewrite Hres. vm_compute. reflexivity.
Defined.



Lemma unparseable_text_shown_raw_witness :
  indexOf "no brackets here" "["%char = -1
  /\ newsResults
       (after_fetch (Some (Examples.answering "no brackets here"))
                    Examples.page)
     = [Html "<p>no brackets here</p>"]
  /\ newsResults
       (after_fetch (Some (Examples.answering Scenes.prose)) Examples.page)
     = [Html "<p>Top story: &lt;b&gt;AT&amp;T&lt;/b&gt;<br>no &#039;json&#039; here</p>"].
Proof.
  split; [reflexivity|]. split.
  - apply (unparseable_text_shown_raw
             (Examples.answering "no brackets here") Examples.page
             "no brackets here");
      [reflexivity | discriminate | left; reflexivity].
  - apply (unparseable_text_shown_raw
             (Examples.answering Scenes.prose) Examples.page Scenes.prose);
      [reflexivity | discriminate | left; reflexivity].
Defined.

Lemma empty_array_shows_no_news_witness :
  extractJson "[]" = Ok "[]"
  /\ JSON_parse "[]" = Some (JArray [])
  /\ newsResults (after_fetch (Some (Examples.answering "[]")) Examples.page)
     = [Html msg_no_news]
  /\ loading (after_fetch (Some (Examples.answering "[]")) Examples.page)
     = false.
Proof.
  split; [reflexivity|]. split; [reflexivity|].
  destruct (empty_array_shows_no_news
              (Examples.answering "[]") Examples.page "[]" "[]")
    as (_ & Hres & _ & Hload); try reflexivity.
  split; [exact Hres | exact Hload].
Defined.

Lemma empty_or_rejected_shows_error_witness :
  newsResults (after_fetch (Some Examples.rejecting) Examples.page)
    = [Html msg_error]
  /\ newsResults (after_fetch (Some Examples.silent) Examples.page)
    = [Html msg_error]
  /\ newsResults (after_fetch (Some (Examples.answering "")) Examples.page)
    = [Html msg_error].
Proof.
  split; [|split].
  - apply (empty_or_rejected_shows_error Examples.rejecting Examples.page).
    left. eexists. reflexivity.
  - apply (empty_or_rejected_shows_error Examples.silent Examples.page).
    right. left. reflexivity.
  - apply (empty_or_rejected_shows_error
             (Examples.answering "") Examples.page).
    right. right. reflexivity.
Defined.

Lemma unparseable_url_discards_batch_witness :
  JSON_parse Scenes.broken_lines_json
    = Some (JArray ([Examples.record "A" "https://www.example.com/a"]
                    ++ Examples.record "B" "not a url" :: []))
  /\ URL_hostname "not a url" = None
  /\ parseAndRender Scenes.broken_lines_json (in_flight Examples.page)
     = (Throw TypeError,
        appended [link "https://www.example.com/a" "A" "www.example.com"]
                 (in_flight Examples.page))
  /\ newsResults
       (after_fetch (Some (Examples.answering Scenes.broken_lines_json))
                    Examples.page)
     = [Html "<p>[{&quot;title&quot;:&quot;A&quot;,&quot;url&quot;:&quot;https://www.example.com/a&quot;},<br>{&quot;title&quot;:&quot;B&quot;,&quot;url&quot;:&quot;not a url&quot;}]</p>"].
Proof.
  split; [vm_compute; reflexivity|]. split; [reflexivity|].
  destruct (unparseable_url_discards_batch
              (Examples.answering Scenes.broken_lines_json) Examples.page
              Scenes.broken_lines_json Scenes.broken_lines_json
              [Examples.record "A" "https://www.example.com/a"] []
              [("title", JString "B"); ("url", JString "not a url")]
              "not a url")
    as (_ & Hthrow & Hres & _);
    [reflexivity | vm_compute; reflexivity | vm_compute; reflexivity
     | reflexivity | reflexivity | discriminate | reflexivity | ].
  destruct Hthrow as [Hthrow _]; [vm_compute; reflexivity|].
  split; [rewrite Hthrow; vm_compute; reflexivity|].
  rewrite Hres. vm_compute. reflexivity.
Defined.

(** When the loop of the broken batch throws, the item of its first
    record is in the container. *)
Example broken_batch_at_throw :
  forOf [Examples.record "A" "https://www.example.com/a";
         Examples.record "B" "not a url"] (in_flight Examples.page)
  = (Throw TypeError,
     appended
       [Div "news-item"
            (item_markup "https://www.example.com/a" "A" "example.com")]
       (in_flight Examples.page)).
Proof. vm_compute. reflexivity. Qed.

(** C1, on the record whose [url] is [Examples.query_url]: the text is
    parsed and the record rendered; title and host label went through
    [escapeHtml], while the [href] attribute holds the [url] as it came,
    with its raw ampersand and double quotes, which [escapeHtml] would
    have replaced. *)
Theorem href_inserted_unescaped :
  JSON_parse Examples.query_json
    = Some (JArray [Examples.record "A" Examples.query_url])
  /\ newsResults
       (after_fetch (Some (Examples.answering Examples.query_json))
                    Examples.page)
     = [Div "news-item"
            (item_markup Examples.query_url (escapeHtml "A")
                         (escapeHtml "example.com"))]
  /\ occurs Chars.amp Examples.query_url = true
  /\ occurs Chars.dquote Examples.query_url = true
  /\ no_raw_special Examples.query_url = false
  /\ escapeHtml Examples.query_url
     = "https://example.com/?a=1&amp;b=&quot;x&quot;".
Proof. repeat split; vm_compute; reflexivity. Qed.

(** * Further properties of the code *)

(** ** [escapeHtml] and the fallback markup *)

Lemma entity_app_inj (a b : ascii) (r1 r2 : string) :
  entity a ++ r1 = entity b ++ r2 -> a = b /\ r1 = r2.
Proof.
  unfold entity. which_special a; which_special b;
    repeat match goal with
           | H : Ascii.eqb _ _ = true |- _ => apply Ascii.eqb_eq in H; subst
           end;
    cbn; intros H; injection H as; subst;
    try (split; reflexivity); try discriminate.
Qed.

Lemma entity_not_empty (a : ascii) (r : string) : entity a ++ r <> "".
Proof. unfold entity. which_special a; discriminate. Qed.

(** X1: escaping loses nothing: two strings with the same escaped form
    are the same string. *)
Theorem escapeHtml_injective (s1 s2 : string) :
  escapeHtml s1 = escapeHtml s2 -> s1 = s2.
Proof.
  rewrite !escapeHtml_spec. revert s2.
  induction s1 as [|a s1 IH]; intros [|b s2]; simpl; intros H.
  - reflexivity.
  - symmetry in H. now apply entity_not_empty in H.
  - now apply entity_not_empty in H.
  - apply entity_app_inj in H as [-> H]. now rewrite (IH _ H).
Qed.

Lemma escapeHtml_injective_witness :
  escapeHtml "a<b" = escapeHtml ("a" ++ "<b") /\ "a<b" = "a" ++ "<b".
Proof.
  split; [reflexivity|].
  apply (escapeHtml_injective "a<b" ("a" ++ "<b")). reflexivity.
Defined.

(** X2: the escaped form of a concatenation is the concatenation of the
    escaped forms, so escaping the parts of a text one by one gives what
    escaping the whole gives. *)
Theorem escapeHtml_distributes (s1 s2 : string) :
  escapeHtml (s1 ++ s2) = escapeHtml s1 ++ escapeHtml s2.
Proof.
  induction s1 as [|a s1 IH]; [reflexivity|].
  simpl append. rewrite !escapeHtml_cons, IH, append_assoc. reflexivity.
Qed.

Lemma entity_length_max (a : ascii) : (String.length (entity a) <= 6)%nat.
Proof. unfold entity. which_special a; simpl; lia. Qed.

(** X3: escaping never shortens a string and makes it at most six times
    as long. *)
Theorem escapeHtml_length (s : string) :
  (String.length s <= String.length (escapeHtml s) <= 6 * String.length s)%nat.
Proof.
  rewrite escapeHtml_spec. split; [apply escape_spec_length|].
  induction s as [|a s IH]; simpl; [lia|].
  rewrite length_append. pose proof (entity_length_max a). lia.
Qed.

Lemma fallback_char_shape (a : ascii) (r : string) :
  lt_only_in_br (fallback_char a ++ r) = lt_only_in_br r
  /\ amp_only_in_entities (fallback_char a ++ r) = amp_only_in_entities r
  /\ occurs Chars.lf (fallback_char a) = false
  /\ occurs Chars.dquote (fallback_char a) = false
  /\ occurs Chars.squote (fallback_char a) = false.
Proof.
  unfold fallback_char, entity.
  destruct (Ascii.eqb_spec a Chars.lf) as [->|Hlf];
    [cbn; rewrite ?prefix_empty; repeat split; reflexivity|].
  apply Ascii.eqb_neq in Hlf.
  which_special a; cbn;
    rewrite ?Eamp, ?Elt, ?Egt, ?Edq, ?Esq, ?Hlf, ?prefix_empty;
    repeat split; reflexivity.
Qed.

(** X4: the fallback paragraph is [<p>], the response read once from
    left to right with each line feed turned into [<br>] and each of the
    five characters into its entity, then [</p>].  In that body no line
    feed and no quote is left, every [&] starts an entity and every [<]
    starts a [<br>]: the response cannot open a tag of its own. *)
Theorem fallback_markup_shape (t : string) :
  fallback_markup t = "<p>" ++ fallback_body t ++ "</p>"
  /\ lt_only_in_br (fallback_body t) = true
  /\ amp_only_in_entities (fallback_body t) = true
  /\ occurs Chars.lf (fallback_body t) = false
  /\ occurs Chars.dquote (fallback_body t) = false
  /\ occurs Chars.squote (fallback_body t) = false.
Proof.
  split; [unfold fallback_markup; now rewrite fallback_one_pass|].
  induction t as [|a t (IH1 & IH2 & IH3 & IH4 & IH5)];
    [repeat split; reflexivity|].
  simpl. destruct (fallback_char_shape a (fallback_body t))
    as (H1 & H2 & H3 & H4 & H5).
  rewrite !occurs_append, H1, H2, H3, H4, H5, IH1, IH2, IH3, IH4, IH5.
  repeat split; reflexivity.
Qed.

(** X5: the host label loses one leading [www.] and no more: what
    follows it is kept as it is, even when it starts with [www.] again,
    and a host without that prefix is unchanged. *)
Theorem strip_www_once (s : string) :
  strip_www ("www." ++ s) = s
  /\ (starts_with "www." s = false -> strip_www s = s).
Proof.
  split.
  - unfold strip_www, starts_with. cbn. rewrite prefix_empty.
    rewrite Nat.sub_0_r. apply substring_all.
  - unfold strip_www. now intros ->.
Qed.

Lemma strip_www_once_witness :
  strip_www "www.www.example.com" = "www.example.com"
  /\ strip_www "news.example.org" = "news.example.org".
Proof.
  split.
  - apply (strip_www_once "www.example.com").
  - apply (strip_www_once "news.example.org"). reflexivity.
Defined.

(** ** The extraction of the bracketed part *)

Lemma indexOf_from_none (c : ascii) (s : string) (i : Z) :
  occurs c s = false -> indexOf_from c s i = -1.
Proof.
  revert i. induction s as [|a s IH]; intros i; simpl; [reflexivity|].
  intros H. apply orb_false_iff in H as [Ha Hs]. rewrite Ha. now apply IH.
Qed.

Lemma indexOf_from_first (c : ascii) (pre rest : string) (i : Z) :
  occurs c pre = false ->
  indexOf_from c (pre ++ String c rest) i = i + Z.of_nat (String.length pre).
Proof.
  revert i. induction pre as [|a pre IH]; intros i; simpl.
  - intros _. rewrite Ascii.eqb_refl. lia.
  - intros H. apply orb_false_iff in H as [Ha Hs]. rewrite Ha.
    rewrite IH by assumption. lia.
Qed.

Lemma indexOf_from_found (c : ascii) (s : string) (i : Z) :
  occurs c s = true -> i <= indexOf_from c s i.
Proof.
  revert i. induction s as [|a s IH]; intros i; simpl; [discriminate|].
  destruct (Ascii.eqb a c); simpl; [lia|].
  intros H. specialize (IH (i + 1) H). lia.
Qed.

Lemma lastIndexOf_from_none (c : ascii) (s : string) (i last : Z) :
  occurs c s = false -> lastIndexOf_from c s i last = last.
Proof.
  revert i last. induction s as [|a s IH]; intros i last; simpl;
    [reflexivity|].
  intros H. apply orb_false_iff in H as [Ha Hs]. rewrite Ha. now apply IH.
Qed.

Lemma lastIndexOf_from_last (c : ascii) (front post : string) (i last : Z) :
  occurs c post = false ->
  lastIndexOf_from c (front ++ String c post) i last
  = i + Z.of_nat (String.length front).
Proof.
  intros Hpost. revert i last.
  induction front as [|a front IH]; intros i last; simpl.
  - rewrite Ascii.eqb_refl, lastIndexOf_from_none by assumption. lia.
  - rewrite IH. lia.
Qed.

Lemma lastIndexOf_from_found (c : ascii) (s : string) (i last : Z) :
  occurs c s = true -> i <= lastIndexOf_from c s i last.
Proof.
  revert i last. induction s as [|a s IH]; intros i last; simpl;
    [discriminate|].
  destruct (occurs c s) eqn:Hs.
  - intros _. specialize (IH (i + 1) (if Ascii.eqb a c then i else last)
                             eq_refl). lia.
  - rewrite orb_false_r. intros ->.
    rewrite lastIndexOf_from_none by assumption. lia.
Qed.

Lemma substring_middle (pre mid post : string) :
  String.substring (String.length pre) (String.length mid)
                   (pre ++ mid ++ post) = mid.
Proof.
  induction pre as [|a pre IH]; simpl; [|exact IH].
  induction mid as [|b mid IHm]; simpl.
  - destruct post; reflexivity.
  - now rewrite IHm.
Qed.

(** The part of a text between two positions given by lengths. *)
Lemma substring_between (pre mid post : string) (i j : Z) :
  i = Z.of_nat (String.length pre) ->
  j = Z.of_nat (String.length pre + String.length mid) ->
  substring (pre ++ mid ++ post) i j = mid
  /\ substring (pre ++ mid ++ post) j i = mid.
Proof.
  intros -> ->. unfold substring. rewrite !length_append.
  split.
  - replace (Z.to_nat _) with (String.length pre) by lia.
    replace (Z.to_nat _) with (String.length mid) by lia.
    apply substring_middle.
  - replace (Z.to_nat _) with (String.length pre) by lia.
    replace (Z.to_nat _) with (String.length mid) by lia.
    apply substring_middle.
Qed.

(** X6: the extraction fails exactly when the text has no [[] or no
    []]; with at least one of each it always yields a text. *)
Theorem extractJson_fails_iff (t : string) :
  (exists e, extractJson t = Raise e)
  <-> occurs "["%char t = false \/ occurs "]"%char t = false.
Proof.
  unfold extractJson, indexOf, lastIndexOf. split.
  - intros [e H].
    destruct (occurs "["%char t) eqn:Ho; [|now left].
    destruct (occurs "]"%char t) eqn:Hc; [|now right].
    pose proof (indexOf_from_found _ _ 0 Ho).
    pose proof (lastIndexOf_from_found _ _ 0 (-1) Hc).
    destruct (Z.eqb_spec (indexOf_from "[" t 0) (-1)); [lia|].
    destruct (Z.eqb_spec (lastIndexOf_from "]" t 0 (-1)) (-1)); [lia|].
    discriminate.
  - intros [H|H].
    + rewrite (indexOf_from_none _ _ _ H). simpl. eexists; reflexivity.
    + rewrite (lastIndexOf_from_none _ _ _ _ H), Z.eqb_refl, orb_true_r.
      eexists; reflexivity.
Qed.

(** X7: when the first [[] comes before the last []], the extraction is
    the text from the one to the other, both included, whatever
    surrounds them and whatever brackets lie in between. *)
Theorem extractJson_in_order (pre mid post : string) :
  occurs "["%char pre = false -> occurs "]"%char post = false ->
  extractJson (pre ++ String "["%char (mid ++ String "]"%char post))
  = Ok (String "["%char (mid ++ "]")).
Proof.
  intros Hpre Hpost. unfold extractJson, indexOf, lastIndexOf.
  rewrite (indexOf_from_first _ _ _ _ Hpre).
  replace (pre ++ String "["%char (mid ++ String "]"%char post))
    with ((pre ++ String "["%char mid) ++ String "]"%char post)
    by (rewrite append_assoc; reflexivity).
  rewrite (lastIndexOf_from_last _ _ _ _ _ Hpost).
  destruct (Z.eqb_spec (0 + Z.of_nat (String.length pre)) (-1)); [lia|].
  destruct (Z.eqb_spec
              (0 + Z.of_nat (String.length (pre ++ String "["%char mid)))
              (-1)); [lia|].
  simpl orb. cbv iota. f_equal.
  replace ((pre ++ String "["%char mid) ++ String "]"%char post)
    with (pre ++ String "["%char (mid ++ "]") ++ post)
    by (rewrite !append_assoc; simpl; rewrite append_assoc; reflexivity).
  refine (proj1 (substring_between
                   pre (String "["%char (mid ++ "]")) post _ _ _ _)); [lia|].
  rewrite length_append. simpl. rewrite length_append. simpl. lia.
Qed.

Lemma extractJson_fails_iff_witness :
  exists e, extractJson "no brackets here" = Raise e.
Proof.
  apply (extractJson_fails_iff "no brackets here"). left. reflexivity.
Defined.

Lemma extractJson_in_order_witness :
  extractJson "Here you go: [[1],[2]] (sources: [a], [b]) done"
  = Ok "[[1],[2]] (sources: [a], [b]".
Proof.
  apply (extractJson_in_order "Here you go: " "[1],[2]] (sources: [a], [b"
                              ") done"); reflexivity.
Defined.

(** X8: when the last []] comes before the first [[], [substring] swaps
    its arguments and the extraction is the text strictly between the
    two, which holds no bracket. *)
Theorem extractJson_reversed (pre mid post : string) :
  occurs "["%char pre = false -> occurs "["%char mid = false ->
  occurs "]"%char mid = false -> occurs "]"%char post = false ->
  extractJson (pre ++ String "]"%char (mid ++ String "["%char post))
  = Ok mid.
Proof.
  intros Hpre Hmo Hmc Hpost. unfold extractJson, indexOf, lastIndexOf.
  rewrite (lastIndexOf_from_last
             "]"%char pre (mid ++ String "["%char post) 0 (-1))
    by (rewrite occurs_append, Hmc; simpl; exact Hpost).
  replace (pre ++ String "]"%char (mid ++ String "["%char post))
    with ((pre ++ String "]"%char mid) ++ String "["%char post)
    by (rewrite append_assoc; reflexivity).
  rewrite (indexOf_from_first
             "["%char (pre ++ String "]"%char mid) post 0)
    by (rewrite occurs_append, Hpre; simpl; exact Hmo).
  destruct (Z.eqb_spec
              (0 + Z.of_nat (String.length (pre ++ String "]"%char mid)))
              (-1)); [lia|].
  destruct (Z.eqb_spec (0 + Z.of_nat (String.length pre)) (-1)); [lia|].
  simpl orb. cbv iota. f_equal.
  replace ((pre ++ String "]"%char mid) ++ String "["%char post)
    with ((pre ++ "]") ++ mid ++ String "["%char post)
    by (rewrite !append_assoc; reflexivity).
  refine (proj2 (substring_between
                   (pre ++ "]") mid (String "["%char post) _ _ _ _)).
  - rewrite length_append. simpl. lia.
  - rewrite !length_append. simpl. lia.
Qed.

Lemma extractJson_reversed_witness :
  extractJson "see item 3] 42 [and more" = Ok " 42 ".
Proof.
  apply (extractJson_reversed "see item 3" " 42 " "and more"); reflexivity.
Defined.

(** ** What a fetch leaves in the results container *)

Section FetchShapes.

Context {P : Platform}.

(** Whatever the loop appends is an item with escaped heading and
    label. *)
Lemma forOf_rendered (l : list JSValue) (st : State) :
  exists rendered,
    Forall escaped_item rendered
    /\ (forOf l st = (Normal, appended rendered st)
        \/ forOf l st = (Throw TypeError, appended rendered st)).
Proof.
  revert st. induction l as [|a l IH]; intros st; simpl.
  - exists []. rewrite appended_nil. auto.
  - destruct (renderArticle a) as [[item|]|e] eqn:E.
    + unfold seq, appendChild.
      destruct (IH (appended [item] st)) as (rendered & Hall & H).
      exists (item :: rendered). rewrite <- appended_cons.
      split; [|exact H]. constructor; [|exact Hall].
      destruct (rendered_holes _ _ E)
        as (u & href & heading & label & _ & _ & -> & Hh & Hl).
      now exists href, heading, label.
    + apply IH.
    + apply renderArticle_error in E as ->.
      exists []. rewrite appended_nil. auto.
Qed.

(** After a fetch that runs alone the results container holds either one
    paragraph (one of the three fixed messages or the fallback of some
    response text) or nothing but [news-item] elements made by the
    template, each with a heading and a label free of raw special
    characters.  Items and a message are never shown together. *)
Theorem results_message_or_items (ai : option GoogleGenAI) (st : State) :
  (exists m,
     newsResults (after_fetch ai st) = [Html m]
     /\ (m = msg_not_initialized \/ m = msg_error \/ m = msg_no_news
         \/ exists t, m = fallback_markup t))
  \/ Forall escaped_item (newsResults (after_fetch ai st)).
Proof.
  destruct ai as [client|];
    [|left; exists msg_not_initialized; split; [reflexivity | auto]].
  destruct (generateContent client the_request) as [r|[t|]] eqn:Hcall.
  - left. exists msg_error. split; [|auto]. unfold after_fetch.
    destruct (fetch_failed client st) as [e ->]; [|reflexivity].
    left. now exists r.
  - destruct (String.eqb_spec t "") as [->|Ht].
    { left. exists msg_error. split; [|auto]. unfold after_fetch.
      destruct (fetch_failed client st) as [e ->]; [auto | reflexivity]. }
    unfold after_fetch. rewrite (fetch_resolved _ _ _ Hcall Ht).
    unfold parseAndRender.
    destruct (extractJson t) as [j|e];
      [|left; exists (fallback_markup t); split; [reflexivity | eauto]].
    destruct (JSON_parse j) as [v|];
      [|left; exists (fallback_markup t); split; [reflexivity | eauto]].
    destruct v as [| |b|n|s|[|a items]|props];
      try (left; exists msg_no_news; split; [reflexivity | auto]).
    destruct (forOf_rendered (a :: items) (in_flight st))
      as (rendered & Hall & [H|H]); rewrite H.
    + right. exact Hall.
    + left. exists (fallback_markup t). split; [reflexivity | eauto].
  - left. exists msg_error. split; [|auto]. unfold after_fetch.
    destruct (fetch_failed client st) as [e ->]; [auto | reflexivity].
Qed.




(** X12: when the extracted text parses to a value that is not an array
    (which the reversed brackets of X8 make possible), the function
    shows the message that no news could be retrieved and returns; the
    raw text is not shown and nothing is logged. *)
Theorem non_array_shows_no_news
        (client : GoogleGenAI) (st : State) (textResponse jsonString : string)
        (v : JSValue) :
  generateContent client the_request = Resolves (Some textResponse) ->
  extractJson textResponse = Ok jsonString ->
  JSON_parse jsonString = Some v ->
  (forall items, v <> JArray items) ->
  fst (fetchAndDisplayNews (Some client) st) = Return
  /\ newsResults (after_fetch (Some client) st) = [Html msg_no_news]
  /\ console (after_fetch (Some client) st) = console st
  /\ loading (after_fetch (Some client) st) = false.
Proof.
  intros Hcall Hx Hparse Hv. unfold after_fetch, loading.
  rewrite (fetch_resolved _ _ _ Hcall (extractJson_nonempty _ _ Hx)).
  unfold parseAndRender. rewrite Hx, Hparse.
  destruct v; try (repeat split; reflexivity).
  now destruct (Hv items).
Qed.

End FetchShapes.

(** ** The handlers and the calls in flight *)

Section PageProperties.

Context {P : Platform}.

(** The one-step function is the part before the [await] followed by
    the continuation on the outcome of the call. *)
Lemma fetch_splits (client : GoogleGenAI) (st : State) :
  fetchAndDisplayNews (Some client) st
  = Page.resume (generateContent client the_request) (snd (prologue st)).
Proof. reflexivity. Qed.

Lemma resume_hides_loader (outcome : CallOutcome) (st : State) :
  loader_hidden (snd (Page.resume outcome st)) = true.
Proof. apply finally_hides_loader. Qed.

Lemma remove_nth_length {A : Type} (i : nat) (l : list A) :
  (i < length l)%nat ->
  length (Page.remove_nth i l) = (length l - 1)%nat.
Proof.
  revert i. induction l as [|x l IH]; intros [|i]; simpl; try lia.
  intros H. rewrite IH by lia. lia.
Qed.

(** On a page without a call in flight, an activation followed by
    the settlement of the call it issued leaves loader, results and
    console as [fetchAndDisplayNews] run in one go does, and no call in
    flight; without a client the activation alone does. *)
Theorem activation_then_settlement (pg : Page.t) :
  Page.pending pg = [] ->
  match Page.ai pg with
  | Some client =>
      Page.dom (Page.settle 0 (Page.showNewsView pg))
        = after_fetch (Some client) (Page.dom pg)
      /\ Page.pending (Page.settle 0 (Page.showNewsView pg)) = []
  | None =>
      Page.dom (Page.showNewsView pg) = after_fetch None (Page.dom pg)
      /\ Page.pending (Page.showNewsView pg) = []
  end.
Proof.
  intros Hp. unfold Page.showNewsView, Page.start_fetch, Page.settle. simpl.
  destruct (Page.ai pg) as [client|]; simpl; rewrite Hp; simpl.
  - split; reflexivity.
  - split; reflexivity.
Qed.

Lemma step_views (ev : Page.Event) (pg : Page.t) :
  Page.home_hidden pg = negb (Page.news_hidden pg) ->
  Page.home_hidden (Page.step ev pg)
  = negb (Page.news_hidden (Page.step ev pg)).
Proof.
  intros H. destruct ev as [| |key|i]; simpl.
  - unfold Page.showNewsView, Page.start_fetch. simpl.
    destruct (Page.ai pg); reflexivity.
  - reflexivity.
  - unfold Page.onKeydown.
    destruct (String.eqb key "Enter" || String.eqb key " "); [|exact H].
    unfold Page.showNewsView, Page.start_fetch. simpl.
    destruct (Page.ai pg); reflexivity.
  - unfold Page.settle. destruct (nth_error (Page.pending pg) i); exact H.
Qed.

(** X14: the two views stay mutually exclusive: if exactly one of the
    two sections is hidden, the same holds after any sequence of clicks,
    key presses and settlements. *)
Theorem views_stay_exclusive (evs : list Page.Event) (pg : Page.t) :
  Page.home_hidden pg = negb (Page.news_hidden pg) ->
  Page.home_hidden (Page.run evs pg)
  = negb (Page.news_hidden (Page.run evs pg)).
Proof.
  revert pg. induction evs as [|ev evs IH]; intros pg H; simpl;
    [exact H|].
  apply IH, step_views, H.
Qed.

(** Going back to the home view cancels nothing: it leaves loader,
    results, console and the calls in flight as they are, and it
    commutes with the settlement of any call, whose continuation still
    writes into the results container. *)
Theorem back_does_not_cancel (i : nat) (pg : Page.t) :
  Page.dom (Page.showHomeView pg) = Page.dom pg
  /\ Page.pending (Page.showHomeView pg) = Page.pending pg
  /\ Page.settle i (Page.showHomeView pg)
     = Page.showHomeView (Page.settle i pg).
Proof.
  repeat split. unfold Page.settle, Page.showHomeView. simpl.
  destruct (nth_error (Page.pending pg) i); reflexivity.
Qed.

Lemma step_quiescent (ev : Page.Event) (pg : Page.t) :
  (Page.pending pg = [] -> loader_hidden (Page.dom pg) = true) ->
  Page.pending (Page.step ev pg) = [] ->
  loader_hidden (Page.dom (Page.step ev pg)) = true.
Proof.
  intros H.
  assert (Hshow : Page.pending (Page.showNewsView pg) = [] ->
                  loader_hidden (Page.dom (Page.showNewsView pg)) = true).
  { unfold Page.showNewsView, Page.start_fetch. simpl.
    destruct (Page.ai pg) as [client|]; simpl; [|reflexivity].
    intros Hp. now apply app_eq_nil in Hp as [_ Hp]. }
  destruct ev as [| |key|i]; simpl.
  - exact Hshow.
  - exact H.
  - unfold Page.onKeydown.
    destruct (String.eqb key "Enter" || String.eqb key " ");
      [exact Hshow | exact H].
  - unfold Page.settle.
    destruct (nth_error (Page.pending pg) i); [|exact H].
    simpl. intros _. apply resume_hides_loader.
Qed.

(** X16: once no call is in flight the loading flag is false: from a
    page of which that is true, it is true again after any sequence of
    events, however the activations and settlements interleave. *)
Theorem idle_page_not_loading (evs : list Page.Event) (pg : Page.t) :
  (Page.pending pg = [] -> loading (Page.dom pg) = false) ->
  Page.pending (Page.run evs pg) = [] ->
  loading (Page.dom (Page.run evs pg)) = false.
Proof.
  unfold loading. revert pg.
  induction evs as [|ev evs IH]; intros pg H; simpl; [exact H|].
  apply IH. intros Hp. rewrite (step_quiescent ev pg); [reflexivity| |exact Hp].
  intros Hp'. specialize (H Hp'). now destruct (loader_hidden (Page.dom pg)).
Qed.

(** X17: the loader does not count the calls in flight: with two or
    more of them, the settlement of any one hides the loader although a
    call is still in flight. *)
Theorem first_settlement_hides_loader (i : nat) (pg : Page.t) :
  (2 <= length (Page.pending pg))%nat ->
  (i < length (Page.pending pg))%nat ->
  loading (Page.dom (Page.settle i pg)) = false
  /\ Page.pending (Page.settle i pg) <> [].
Proof.
  intros H2 Hi. unfold Page.settle, loading.
  destruct (nth_error (Page.pending pg) i) as [outcome|] eqn:E.
  - simpl. rewrite resume_hides_loader. split; [reflexivity|].
    intros Hnil. apply (f_equal (@length _)) in Hnil.
    rewrite remove_nth_length in Hnil by exact Hi. simpl in Hnil. lia.
  - apply nth_error_None in E. lia.
Qed.

(** The continuation on a batch of valid and incomplete records appends
    the items to what the container holds when it runs. *)
Lemma resume_appends
      (st : State) (textResponse jsonString : string)
      (articles : list JSValue) :
  extractJson textResponse = Ok jsonString ->
  JSON_parse jsonString = Some (JArray articles) ->
  articles <> [] ->
  forallb (fun a => incomplete a || is_valid a) articles = true ->
  snd (Page.resume (Resolves (Some textResponse)) st)
  = mkState true (newsResults st ++ valid_items articles) (console st).
Proof.
  intros Hx Hparse Hne Hall.
  pose proof (extractJson_nonempty _ _ Hx) as Ht.
  unfold Page.resume, try_finally, try_catch at 1, handleOutcome.
  destruct textResponse as [|a t]; [contradiction|].
  unfold try_catch.
  rewrite (parseAndRender_array _ _ _ _ Hx Hparse Hne).
  rewrite (forOf_mixed _ _ Hall). reflexivity.
Qed.

Lemma showNewsView_with_client (pg : Page.t) (client : GoogleGenAI) :
  Page.ai pg = Some client ->
  Page.showNewsView pg
  = Page.mk (Some client) (Page.card pg) true false
            (in_flight (Page.dom pg))
            (Page.pending pg ++ [generateContent client the_request]).
Proof.
  intros Hai. unfold Page.showNewsView, Page.start_fetch. simpl.
  rewrite Hai. reflexivity.
Qed.

(** X18: the results are cleared when a fetch starts, not when its call
    settles.  After news, home, news in quick succession (two calls in
    flight), when both calls have settled with the same valid batch the
    container shows every headline twice. *)
Theorem overlapping_fetches_accumulate
        (pg : Page.t) (client : GoogleGenAI)
        (textResponse jsonString : string) (articles : list JSValue) :
  Page.ai pg = Some client -> Page.pending pg = [] ->
  generateContent client the_request = Resolves (Some textResponse) ->
  extractJson textResponse = Ok jsonString ->
  JSON_parse jsonString = Some (JArray articles) ->
  articles <> [] ->
  forallb (fun a => incomplete a || is_valid a) articles = true ->
  newsResults
    (Page.dom
       (Page.run [Page.ClickCard; Page.ClickBack; Page.ClickCard;
                  Page.Settle 0; Page.Settle 0] pg))
  = (valid_items articles ++ valid_items articles)%list
  /\ Page.pending
       (Page.run [Page.ClickCard; Page.ClickBack; Page.ClickCard;
                  Page.Settle 0; Page.Settle 0] pg) = [].
Proof.
  intros Hai Hp Hcall Hx Hparse Hne Hall.
  cbn [Page.run Page.step].
  rewrite (showNewsView_with_client pg client Hai), Hp, Hcall.
  unfold Page.showHomeView. cbn.
  rewrite Hcall.
  rewrite !(resume_appends _ _ _ _ Hx Hparse Hne Hall). cbn.
  split; reflexivity.
Qed.

Lemma step_without_client (ev : Page.Event) (pg : Page.t) :
  Page.ai pg = None -> Page.pending pg = [] ->
  Page.ai (Page.step ev pg) = None
  /\ Page.pending (Page.step ev pg) = []
  /\ Page.card (Page.step ev pg) = Page.card pg
  /\ (Page.activates ev = true ->
      Page.dom (Page.step ev pg) = after_fetch None (Page.dom pg))
  /\ (Page.activates ev = false ->
      Page.dom (Page.step ev pg) = Page.dom pg).
Proof.
  intros Hai Hp.
  assert (Hshow : Page.showNewsView pg
                  = Page.mk None (Page.card pg) true false
                            (after_fetch None (Page.dom pg)) []).
  { unfold Page.showNewsView, Page.start_fetch, Page.with_dom. simpl.
    now rewrite Hai, Hp. }
  destruct ev as [| |key|i]; simpl.
  - rewrite Hshow. simpl. repeat split; auto; discriminate.
  - repeat split; auto; discriminate.
  - unfold Page.onKeydown.
    destruct (String.eqb key "Enter" || String.eqb key " ").
    + rewrite Hshow. simpl. repeat split; auto; discriminate.
    + repeat split; auto; discriminate.
  - unfold Page.settle. rewrite Hp. destruct i; simpl;
      repeat split; auto; discriminate.
Qed.

(** X19: when the construction of the client throws, the card is styled
    as disabled and, whatever events follow, no call is ever issued;
    every activation that still reaches the handlers (the key listener
    is not affected by [pointer-events]) shows the message that the
    client is not initialized, with the loading flag false. *)
Theorem failed_init_degrades
        (pg0 : Page.t) (error : JSError) (evs : list Page.Event) :
  Page.ai pg0 = None -> Page.pending pg0 = [] ->
  Page.card (Page.run evs (Page.init (Raise error) pg0))
    = Page.mkStyle "none" "0.5"
  /\ Page.pending (Page.run evs (Page.init (Raise error) pg0)) = []
  /\ (existsb Page.activates evs = true ->
      newsResults (Page.dom (Page.run evs (Page.init (Raise error) pg0)))
        = [Html msg_not_initialized]
      /\ loading (Page.dom (Page.run evs (Page.init (Raise error) pg0)))
         = false).
Proof.
  intros Hai Hp.
  assert (Hgen : forall evs pg,
             Page.ai pg = None -> Page.pending pg = [] ->
             Page.card (Page.run evs pg) = Page.card pg
             /\ Page.pending (Page.run evs pg) = []
             /\ (existsb Page.activates evs = true \/
                 (newsResults (Page.dom pg) = [Html msg_not_initialized]
                  /\ loading (Page.dom pg) = false) ->
                 newsResults (Page.dom (Page.run evs pg))
                   = [Html msg_not_initialized]
                 /\ loading (Page.dom (Page.run evs pg)) = false)).
  { clear. induction evs as [|ev evs IH]; intros pg Hai Hp; simpl.
    - split; [reflexivity|]. split; [exact Hp|].
      intros [H|H]; [discriminate | exact H].
    - destruct (step_without_client ev pg Hai Hp)
        as (Hai' & Hp' & Hcard & Hact & Hnot).
      destruct (IH _ Hai' Hp') as (Hc & Hpend & Hshown).
      split; [now rewrite Hc|]. split; [exact Hpend|].
      intros H. apply Hshown.
      destruct (Page.activates ev) eqn:Ea.
      + right. rewrite (Hact eq_refl). split; reflexivity.
      + simpl in H. destruct H as [H|H]; [now left|].
        right. now rewrite (Hnot eq_refl). }
  destruct (Hgen evs (Page.init (Raise error) pg0) Hai Hp)
    as (Hc & Hpend & Hshown).
  split; [now rewrite Hc|]. split; [exact Hpend|].
  intros H. apply Hshown. now left.
Qed.

(** What the loop body appends is the entry of a title for a [url] the
    platform accepts. *)
Lemma renderArticle_link (article : JSValue) (item : Node) :
  renderArticle article = Ok (Some item) -> news_item item.
Proof.
  unfold renderArticle, hostname_of.
  destruct (Get article "title") as [t|] eqn:Et; simpl; [|discriminate].
  destruct (ToBoolean t); simpl; [|discriminate].
  destruct (Get article "url") as [u|] eqn:Eu; simpl; [|discriminate].
  destruct (ToBoolean u); simpl; [|discriminate].
  destruct (ToString u) as [su|] eqn:Es; simpl; [|discriminate].
  destruct (URL_hostname su) as [h|] eqn:Eh; simpl; [|discriminate].
  destruct t; simpl; try discriminate.
  intros H; injection H as <-.
  exists su, s, h. split; [exact Eh|]. unfold link.
  now rewrite item_markup_text, !escapeHtml_spec, strip_www_drop.
Qed.

Lemma forOf_links (l : list JSValue) (st : State) :
  exists rendered,
    Forall news_item rendered
    /\ (forOf l st = (Normal, appended rendered st)
        \/ forOf l st = (Throw TypeError, appended rendered st)).
Proof.
  revert st. induction l as [|a l IH]; intros st; simpl.
  - exists []. rewrite appended_nil. auto.
  - destruct (renderArticle a) as [[item|]|e] eqn:E.
    + unfold seq, appendChild.
      destruct (IH (appended [item] st)) as (rendered & Hall & H).
      exists (item :: rendered). rewrite <- appended_cons.
      split; [|exact H]. constructor; [|exact Hall].
      now apply renderArticle_link in E.
    + apply IH.
    + apply renderArticle_error in E as ->.
      exists []. rewrite appended_nil. auto.
Qed.

Lemma results_shape_app (nodes items : list Node) :
  results_shape nodes -> Forall news_item items ->
  results_shape (nodes ++ items).
Proof.
  intros [H|(m & rest & -> & Hm & Hrest)] Hitems.
  - left. apply Forall_app. now split.
  - right. exists m, (rest ++ items)%list.
    repeat split; trivial. apply Forall_app. now split.
Qed.

Lemma results_shape_paragraph (m : string) :
  paragraph m -> results_shape [Html m].
Proof. intros Hm. right. now exists m, []. Qed.

(** The continuation on a non-empty response text, from any state. *)
Lemma resume_resolved (t : string) (st : State) :
  t <> "" ->
  Page.resume (Resolves (Some t)) st =
  match parseAndRender t st with
  | (Throw e, st') =>
      (Normal,
       mkState true [Html (fallback_markup t)]
         (console st' ++ [("Failed to parse JSON response:", e)]))
  | (c, st') => (c, mkState true (newsResults st') (console st'))
  end.
Proof.
  intros Ht. unfold Page.resume, try_finally, try_catch at 1, handleOutcome.
  destruct t as [|a t]; [contradiction|].
  unfold try_catch.
  destruct (parseAndRender (String a t) st) as [[| |e] st'];
    try reflexivity.
Qed.

Lemma resume_shape (outcome : CallOutcome) (st : State) :
  results_shape (newsResults st) ->
  results_shape (newsResults (snd (Page.resume outcome st))).
Proof.
  intros Hst.
  assert (Herr : paragraph msg_error) by (right; left; reflexivity).
  assert (Hnone : paragraph msg_no_news) by (right; right; left; reflexivity).
  destruct outcome as [r|[t|]];
    [now apply results_shape_paragraph | |
     now apply results_shape_paragraph].
  destruct (String.eqb_spec t "") as [->|Ht];
    [now apply results_shape_paragraph|].
  assert (Hfall : paragraph (fallback_markup t)).
  { right. right. right. exists t. apply fallback_markup_text. }
  rewrite (resume_resolved _ _ Ht). unfold parseAndRender.
  destruct (extractJson t) as [j|e];
    [|now apply results_shape_paragraph].
  destruct (JSON_parse j) as [v|];
    [|now apply results_shape_paragraph].
  destruct v as [| |b|n|s|[|a items]|props];
    try now apply results_shape_paragraph.
  destruct (forOf_links (a :: items) st)
    as (rendered & Hall & [H|H]); rewrite H.
  - simpl. now apply results_shape_app.
  - now apply results_shape_paragraph.
Qed.

Lemma step_shape (ev : Page.Event) (pg : Page.t) :
  results_shape (newsResults (Page.dom pg)) ->
  results_shape (newsResults (Page.dom (Page.step ev pg))).
Proof.
  intros H.
  assert (Hshow : results_shape
                    (newsResults (Page.dom (Page.showNewsView pg)))).
  { unfold Page.showNewsView, Page.start_fetch. simpl.
    destruct (Page.ai pg) as [client|]; simpl.
    - left. constructor.
    - apply results_shape_paragraph. left. reflexivity. }
  destruct ev as [| |key|i]; simpl.
  - exact Hshow.
  - exact H.
  - unfold Page.onKeydown.
    destruct (String.eqb key "Enter" || String.eqb key " ");
      [exact Hshow | exact H].
  - unfold Page.settle.
    destruct (nth_error (Page.pending pg) i); [|exact H].
    simpl. now apply resume_shape.
Qed.

(** X10: whatever clicks, key presses and settlements follow one
    another, the results container keeps one shape: at most one
    paragraph (one of the three fixed messages, or the response text
    with its special characters written as entities and its line feeds
    as [<br>]), in the first place, and otherwise only entries of the
    template, each the link of some title to some [url] that [URL]
    accepts, its heading the escaped title and its label the escaped
    host of that [url] without a leading [www.]. *)
Theorem results_shape_kept (evs : list Page.Event) (pg : Page.t) :
  results_shape (newsResults (Page.dom pg)) ->
  results_shape (newsResults (Page.dom (Page.run evs pg))).
Proof.
  revert pg. induction evs as [|ev evs IH]; intros pg H; simpl;
    [exact H|].
  apply IH, step_shape, H.
Qed.

End PageProperties.

(** ** The further properties on the executable platform *)


Lemma non_array_shows_no_news_witness :
  extractJson Scenes.reversed_text = Ok " 42 "
  /\ JSON_parse " 42 " = Some (JNumber "42")
  /\ newsResults
       (after_fetch (Some (Examples.answering Scenes.reversed_text))
                    Examples.page)
     = [Html msg_no_news].
Proof.
  split; [reflexivity|]. split; [reflexivity|].
  apply (non_array_shows_no_news
           (Examples.answering Scenes.reversed_text) Examples.page
           Scenes.reversed_text " 42 " (JNumber "42"));
    try reflexivity.
  discriminate.
Defined.

Lemma views_stay_exclusive_witness :
  Page.home_hidden
    (Page.run [Page.ClickCard; Page.Settle 0; Page.ClickBack;
               Page.KeydownCard "Enter"] (Scenes.home "[]"))
  = negb (Page.news_hidden
            (Page.run [Page.ClickCard; Page.Settle 0; Page.ClickBack;
                       Page.KeydownCard "Enter"] (Scenes.home "[]"))).
Proof.
  apply (views_stay_exclusive
           [Page.ClickCard; Page.Settle 0; Page.ClickBack;
            Page.KeydownCard "Enter"] (Scenes.home "[]")).
  reflexivity.
Defined.

Lemma idle_page_not_loading_witness :
  loading
    (Page.dom
       (Page.run [Page.ClickCard; Page.ClickBack; Page.ClickCard;
                  Page.Settle 1; Page.Settle 0] (Scenes.home "[]")))
  = false.
Proof.
  apply (idle_page_not_loading
           [Page.ClickCard; Page.ClickBack; Page.ClickCard;
            Page.Settle 1; Page.Settle 0] (Scenes.home "[]"));
    reflexivity.
Defined.

Lemma first_settlement_hides_loader_witness :
  length (Page.pending
            (Page.run [Page.ClickCard; Page.ClickBack; Page.ClickCard]
                      (Scenes.home "[]"))) = 2%nat
  /\ loading
       (Page.dom
          (Page.settle 0
             (Page.run [Page.ClickCard; Page.ClickBack; Page.ClickCard]
                       (Scenes.home "[]")))) = false
  /\ Page.pending
       (Page.settle 0
          (Page.run [Page.ClickCard; Page.ClickBack; Page.ClickCard]
                    (Scenes.home "[]"))) <> [].
Proof.
  split; [reflexivity|].
  apply (first_settlement_hides_loader 0
           (Page.run [Page.ClickCard; Page.ClickBack; Page.ClickCard]
                     (Scenes.home "[]"))); simpl; lia.
Defined.

Lemma overlapping_fetches_accumulate_witness :
  newsResults
    (Page.dom
       (Page.run [Page.ClickCard; Page.ClickBack; Page.ClickCard;
                  Page.Settle 0; Page.Settle 0]
                 (Scenes.home Examples.batch_json)))
  = [Div "news-item"
         (item_markup "https://www.example.com/a" "A" "example.com");
     Div "news-item"
         (item_markup "https://news.example.org/c" "C" "news.example.org");
     Div "news-item"
         (item_markup "https://www.example.com/a" "A" "example.com");
     Div "news-item"
         (item_markup "https://news.example.org/c" "C" "news.example.org")].
Proof.
  destruct (overlapping_fetches_accumulate
              (Scenes.home Examples.batch_json)
              (Examples.answering Examples.batch_json)
              Examples.batch_json Examples.batch_json
              [Examples.record "A" "https://www.example.com/a";
               JObject [("title", JString "B")];
               Examples.record "C" "https://news.example.org/c"])
    as [Hres _];
    [reflexivity | reflexivity | reflexivity | vm_compute; reflexivity
     | vm_compute; reflexivity | discriminate | vm_compute; reflexivity | ].
  rewrite Hres. vm_compute. reflexivity.
Defined.

Lemma failed_init_degrades_witness :
  Page.card
    (Page.run [Page.KeydownCard " "]
              (Page.init (Raise (Error "An API Key must be set")) Scenes.loaded))
  = Page.mkStyle "none" "0.5"
  /\ newsResults
       (Page.dom
          (Page.run [Page.KeydownCard " "]
             (Page.init (Raise (Error "An API Key must be set"))
                        Scenes.loaded)))
     = [Html msg_not_initialized].
Proof.
  destruct (failed_init_degrades
              Scenes.loaded (Error "An API Key must be set")
              [Page.KeydownCard " "])
    as (Hcard & _ & Hshown); [reflexivity | reflexivity |].
  split; [exact Hcard|]. apply Hshown. reflexivity.
Defined.

(** With two calls in flight a paragraph and an entry are shown
    together, the paragraph first. *)
Lemma results_shape_kept_witness :
  newsResults
    (Page.dom (Page.run [Page.Settle 0; Page.Settle 0] Scenes.two_in_flight))
  = [Html "<p>No trending news could be retrieved at this time.</p>";
     link "https://www.example.com/a" "A" "www.example.com"]
  /\ results_shape
       (newsResults
          (Page.dom
             (Page.run [Page.Settle 0; Page.Settle 0] Scenes.two_in_flight))).
Proof.
  split; [vm_compute; reflexivity|].
  apply (results_shape_kept [Page.Settle 0; Page.Settle 0]
                            Scenes.two_in_flight).
  left. constructor.
Defined.
